(** * MySQL -> Hive + Parquet schema converter: type mapping and DDL parsing

    A shallow embedding of [mysql/mysql_2_parquet_hive_ddl_converter.py]:
    the ordered rule table [MYSQL_TYPE_MAP], the resolver
    [convert_mysql_type], the parser [extract_columns], the two generators
    [generate_hive_ddl] and [generate_parquet_schema], [validate_args], and
    [main] from the parsed arguments on, the MySQL server being a
    parameter of the run.

    Text is modelled as [string] (byte strings); the Python methods the
    program calls on [str] are given on ASCII, which is what a DDL keyword,
    a type name or a quoting delimiter is made of.  Printing, [sys.exit] and
    the exceptions of the indexing and of [pa.decimal128] are threaded
    through a small writer/error monad. *)

From Stdlib Require Import String Ascii List Bool Arith NArith Lia.
From Stdlib Require Import DecimalString DecimalN.
Import ListNotations.

Open Scope list_scope.
Open Scope string_scope.

(* ====================================================================== *)
(** ** Python [str] methods used by the program *)
(* ====================================================================== *)

Module Str.

(** [c.isspace()] on ASCII: TAB..CR, FS..US and the space. *)
Definition isspace (c : ascii) : bool :=
  let n := nat_of_ascii c in
  (((9 <=? n) && (n <=? 13)) || ((28 <=? n) && (n <=? 32)))%nat.

(** What [\d] matches on ASCII. *)
Definition isdigit (c : ascii) : bool :=
  let n := nat_of_ascii c in ((48 <=? n) && (n <=? 57))%nat.

Definition lower_char (c : ascii) : ascii :=
  let n := nat_of_ascii c in
  if ((65 <=? n) && (n <=? 90))%nat then ascii_of_nat (n + 32) else c.

Definition upper_char (c : ascii) : ascii :=
  let n := nat_of_ascii c in
  if ((97 <=? n) && (n <=? 122))%nat then ascii_of_nat (n - 32) else c.

Fixpoint map (f : ascii -> ascii) (s : string) : string :=
  match s with
  | EmptyString => EmptyString
  | String c s' => String (f c) (map f s')
  end.

(** [s.lower()], [s.upper()] *)
Definition lower : string -> string := map lower_char.
Definition upper : string -> string := map upper_char.

Definition is_empty (s : string) : bool :=
  match s with EmptyString => true | _ => false end.

(** [s.lstrip(chars)], [s.rstrip(chars)], [s.strip(chars)], the set of
    characters given as a predicate. *)
Fixpoint lstrip_by (cls : ascii -> bool) (s : string) : string :=
  match s with
  | EmptyString => EmptyString
  | String c s' => if cls c then lstrip_by cls s' else s
  end.

Fixpoint rstrip_by (cls : ascii -> bool) (s : string) : string :=
  match s with
  | EmptyString => EmptyString
  | String c s' =>
      match rstrip_by cls s' with
      | EmptyString => if cls c then EmptyString else String c EmptyString
      | r => String c r
      end
  end.

Definition strip_by (cls : ascii -> bool) (s : string) : string :=
  lstrip_by cls (rstrip_by cls s).

(** [s.strip()] *)
Definition strip : string -> string := strip_by isspace.

(** [s.rstrip(",")], [s.strip("`")] *)
Definition rstrip_chr (c : ascii) : string -> string := rstrip_by (Ascii.eqb c).
Definition strip_chr (c : ascii) : string -> string := strip_by (Ascii.eqb c).

(** [s.startswith(p)] *)
Fixpoint startswith (p s : string) : bool :=
  match p, s with
  | EmptyString, _ => true
  | String a p', String b s' => Ascii.eqb a b && startswith p' s'
  | String _ _, EmptyString => false
  end.

(** [s.split(sep)] for a one-character separator: never empty, keeps empty
    fields. *)
Fixpoint split_chr (sep : ascii) (s : string) : list string :=
  match s with
  | EmptyString => [EmptyString]
  | String c s' =>
      if Ascii.eqb c sep then EmptyString :: split_chr sep s'
      else match split_chr sep s' with
           | h :: t => String c h :: t
           | [] => [String c EmptyString]
           end
  end.

(** [s.split()]: the maximal runs of non-whitespace, [cur] being the run
    read so far. *)
Fixpoint split_ws_from (cur : string) (s : string) : list string :=
  match s with
  | EmptyString => if is_empty cur then [] else [cur]
  | String c s' =>
      if isspace c
      then (if is_empty cur then split_ws_from EmptyString s'
            else cur :: split_ws_from EmptyString s')
      else split_ws_from (cur ++ String c EmptyString) s'
  end.

Definition split (s : string) : list string := split_ws_from EmptyString s.

(** [sep.join(l)] *)
Fixpoint join (sep : string) (l : list string) : string :=
  match l with
  | [] => EmptyString
  | [x] => x
  | x :: l' => x ++ sep ++ join sep l'
  end.

(** [x in l] on a list of strings *)
Definition mem (x : string) (l : list string) : bool :=
  existsb (String.eqb x) l.

Fixpoint take (n : nat) (s : string) : string :=
  match n, s with
  | S n', String c s' => String c (take n' s')
  | _, _ => EmptyString
  end.

Fixpoint drop (n : nat) (s : string) : string :=
  match n, s with
  | S n', String _ s' => drop n' s'
  | _, _ => s
  end.

(** Every character of [s] is in [cls]. *)
Fixpoint all (cls : ascii -> bool) (s : string) : bool :=
  match s with
  | EmptyString => true
  | String c s' => cls c && all cls s'
  end.

(** Length of the longest prefix made of characters of [cls]. *)
Fixpoint run_length (cls : ascii -> bool) (s : string) : nat :=
  match s with
  | String c s' => if cls c then S (run_length cls s') else 0
  | EmptyString => 0
  end.

End Str.

(* ====================================================================== *)
(** ** The regular expressions of the program *)
(* ====================================================================== *)

(** The patterns of [MYSQL_TYPE_MAP] and of [re.findall] are sequences of
    literal characters and of [c+] repetitions of a character class,
    captured or not. *)
Module Re.

Inductive item : Type :=
| Lit (c : ascii)                                  (* [c], [\(], [\)] *)
| Plus (capture : bool) (cls : ascii -> bool).     (* [cls+], [(cls+)] *)

Definition pattern : Type := list item.

Fixpoint lits (s : string) : pattern :=
  match s with
  | EmptyString => []
  | String c s' => Lit c :: lits s'
  end.

(** A match object: the groups and what follows the matched text. *)
Record matched : Type := { groups : list string; rest : string }.

(** [re.match]: the pattern anchored at the start of [s].  A repetition is
    greedy and gives characters back one at a time. *)
Fixpoint match_ (p : pattern) (s : string) : option matched :=
  match p with
  | [] => Some {| groups := []; rest := s |}
  | Lit c :: p' =>
      match s with
      | String x s' => if Ascii.eqb x c then match_ p' s' else None
      | EmptyString => None
      end
  | Plus capture cls :: p' =>
      (fix attempt (k : nat) : option matched :=
         match k with
         | 0 => None
         | S k' =>
             match match_ p' (Str.drop k s) with
             | Some m =>
                 Some {| groups := ((if capture then [Str.take k s] else [])
                                      ++ groups m)%list;
                         rest := rest m |}
             | None => attempt k'
             end
         end) (Str.run_length cls s)
  end.

(** [re.findall] for a pattern with one group: the non-overlapping matches
    from left to right.  [skip] counts the characters of the last match
    that are still to be passed over. *)
Fixpoint findall_from (p : pattern) (skip : nat) (s : string) : list string :=
  match s with
  | EmptyString => []
  | String _ s' =>
      match skip with
      | S skip' => findall_from p skip' s'
      | 0 =>
          match match_ p s with
          | Some m =>
              (groups m
                 ++ findall_from p (String.length s - String.length (rest m) - 1) s')%list
          | None => findall_from p 0 s'
          end
      end
  end.

Definition findall (p : pattern) (s : string) : list string :=
  findall_from p 0 s.

End Re.

(* ====================================================================== *)
(** ** Effects: printing, file appends, exceptions *)
(* ====================================================================== *)

(** [class COLOR] *)
Inductive COLOR : Type := RED | GREEN | YELLOW | BLUE.

(** What a run leaves behind: a line printed in a colour, or a text
    appended to a file ([open(path, "a")] then [write]). *)
Inductive event : Type :=
| Print (c : COLOR) (msg : string)
| Append (path : string) (text : string).

Inductive exn : Type :=
| SystemExit (code : nat)       (* [sys.exit(code)] *)
| IndexError                    (* list index out of range *)
| ValueError (msg : string)
| OverflowError.

Inductive outcome (A : Type) : Type :=
| Return (a : A)
| Raise (e : exn).
Arguments Return {A} a.
Arguments Raise {A} e.

(** A computation: the events it emitted, then its value or the exception
    that stopped it. *)
Definition M (A : Type) : Type := (list event * outcome A)%type.

Definition ret {A} (a : A) : M A := ([], Return a).

Definition bind {A B} (m : M A) (f : A -> M B) : M B :=
  match m with
  | (evs, Return a) => let (evs', r) := f a in ((evs ++ evs')%list, r)
  | (evs, Raise e) => (evs, Raise e)
  end.

Definition emit (e : event) : M unit := ([e], Return tt).
Definition raise {A} (e : exn) : M A := ([], Raise e).
Definition lift {A} (o : outcome A) : M A := ([], o).

Definition events {A} (m : M A) : list event := fst m.
Definition result {A} (m : M A) : outcome A := snd m.

Notation "x <- m ;; k" := (bind m (fun x => k))
  (at level 61, m at next level, right associativity).
Notation "' pat <- m ;; k" := (bind m (fun x => match x with pat => k end))
  (at level 61, pat pattern, m at next level, right associativity).
Notation "m ;; k" := (bind m (fun _ => k))
  (at level 61, right associativity).

(** [info], [ok], [warn], [error] *)
Definition info (msg : string) (enabled : bool) : M unit :=
  if enabled then emit (Print BLUE msg) else ret tt.

Definition ok (msg : string) (enabled : bool) : M unit :=
  if enabled then emit (Print GREEN msg) else ret tt.

Definition warn (msg : string) : M unit := emit (Print YELLOW msg).

Definition error (msg : string) : M unit := emit (Print RED msg).

(** [sys.exit(code)] *)
Definition sys_exit {A} (code : nat) : M A := raise (SystemExit code).

(** [l[i]] *)
Definition index {A} (l : list A) (i : nat) : M A :=
  match nth_error l i with
  | Some a => ret a
  | None => raise IndexError
  end.

(* ====================================================================== *)
(** ** The PyArrow data types of the table *)
(* ====================================================================== *)

Module pa.

Inductive DataType : Type :=
| bool_
| int8 | int16 | int32 | int64
| float32 | float64
| decimal128_ (precision scale : N)
| string
| binary
| date32
| timestamp (unit : String.string).

(** Decimal rendering of a number, as [str] of an [int] and an f-string
    give it. *)
Definition dec (n : N) : String.string :=
  NilZero.string_of_uint (N.to_uint n).

(** The most digits that [int] converts from a text
    ([sys.int_info.default_max_str_digits]). *)
Definition MAX_STR_DIGITS : nat := 4300.

(** [int(p)] at a text that [\d+] matched: the number that the digits
    write; none when there are more than [MAX_STR_DIGITS] of them, leading
    zeros counted, and [int] raises. *)
Definition int (p : String.string) : option N :=
  if (MAX_STR_DIGITS <? String.length p)%nat then None
  else option_map N.of_uint (NilZero.uint_of_string p).

(** The [ValueError] that [int(p)] raises then. *)
Definition int_error (p : String.string) : exn :=
  if (MAX_STR_DIGITS <? String.length p)%nat
  then ValueError
         ("Exceeds the limit (4300 digits) for integer string conversion: "
            ++ "value has " ++ dec (N.of_nat (String.length p))
            ++ " digits; use sys.set_int_max_str_digits() "
            ++ "to increase the limit")%string
  else ValueError
         ("invalid literal for int() with base 10: '" ++ p ++ "'")%string.

(** The largest C [int]: the arguments of [pa.decimal128] are C ints. *)
Definition INT_MAX : N := 2147483647.

(** [pa.decimal128(precision, scale)]: a 128-bit decimal holds 1 to 38
    digits, and the constructor refuses any other precision. *)
Definition decimal128 (precision scale : N) : outcome DataType :=
  if ((INT_MAX <? precision) || (INT_MAX <? scale))%N then Raise OverflowError
  else if ((precision <? 1) || (38 <? precision))%N
       then Raise (ValueError "precision should be between 1 and 38")
       else Return (decimal128_ precision scale).

(** [str(t)], what [f"{pq_type}"] puts in the schema text. *)
Definition str (t : DataType) : String.string :=
  match t with
  | bool_ => "bool"
  | int8 => "int8"
  | int16 => "int16"
  | int32 => "int32"
  | int64 => "int64"
  | float32 => "float"
  | float64 => "double"
  | decimal128_ p s => ("decimal128(" ++ dec p ++ ", " ++ dec s ++ ")")%string
  | string => "string"
  | binary => "binary"
  | date32 => "date32[day]"
  | timestamp u => ("timestamp[" ++ u ++ "]")%string
  end.

End pa.

(* ====================================================================== *)
(** ** GLOBAL MYSQL -> HIVE -> PARQUET TYPE MAP *)
(* ====================================================================== *)

(** The two target types of an entry: plain values, or (the decimal entry)
    two functions of the matched groups. *)
Inductive targets : Type :=
| Plain (hive : string) (parquet : pa.DataType)
| Callable (hive : string -> string -> string)
           (parquet : string -> string -> outcome pa.DataType).

Record mapping : Type :=
  { target : targets;
    note : string }.

Definition digits : Re.item := Re.Plus false Str.isdigit.      (* [\d+] *)
Definition digits_group : Re.item := Re.Plus true Str.isdigit. (* [(\d+)] *)

Definition plain (h : string) (p : pa.DataType) (n : string) : mapping :=
  {| target := Plain h p; note := n |}.

(** A Python [dict] is walked in insertion order: the table is the list of
    its items as written. *)
Definition MYSQL_TYPE_MAP : list (Re.pattern * mapping) :=
  [ (Re.lits "tinyint(1)",
       plain "BOOLEAN" pa.bool_ "Mapped MySQL tinyint(1) to BOOLEAN");
    (Re.lits "tinyint", plain "TINYINT" pa.int8 "");
    (Re.lits "smallint", plain "SMALLINT" pa.int16 "");
    (Re.lits "mediumint",
       plain "INT" pa.int32 "MySQL MEDIUMINT mapped to Hive INT");
    (Re.lits "int", plain "INT" pa.int32 "");
    (Re.lits "bigint", plain "BIGINT" pa.int64 "");
    (Re.lits "float", plain "FLOAT" pa.float32 "");
    (Re.lits "double", plain "DOUBLE" pa.float64 "");
    ((Re.lits "decimal(" ++ [digits_group] ++ Re.lits ","
                         ++ [digits_group] ++ Re.lits ")")%list,
       {| target :=
            Callable
              (fun p s => ("DECIMAL(" ++ p ++ "," ++ s ++ ")")%string)
              (fun p s =>
                 match pa.int p, pa.int s with
                 | Some p', Some s' => pa.decimal128 p' s'
                 | None, _ => Raise (pa.int_error p)
                 | Some _, None => Raise (pa.int_error s)
                 end);
          note := "" |});
    ((Re.lits "varchar(" ++ [digits] ++ Re.lits ")")%list,
       plain "STRING" pa.string "");
    ((Re.lits "char(" ++ [digits] ++ Re.lits ")")%list, plain "STRING" pa.string "");
    (Re.lits "text", plain "STRING" pa.string "");
    (Re.lits "blob", plain "BINARY" pa.binary "");
    (Re.lits "date", plain "DATE" pa.date32 "");
    (Re.lits "datetime", plain "TIMESTAMP" (pa.timestamp "s") "");
    (Re.lits "timestamp", plain "TIMESTAMP" (pa.timestamp "s") "");
    (* Special case types *)
    (Re.lits "enum",
       plain "STRING" pa.string
             "ENUM is not supported in Hive; converted to STRING");
    (Re.lits "set",
       plain "STRING" pa.string
             "SET is not supported in Hive; converted to STRING");
    (Re.lits "json", plain "STRING" pa.string "JSON stored as STRING");
    (Re.lits "time",
       plain "STRING" pa.string "TIME is unsupported; stored as STRING");
    (Re.lits "year", plain "INT" pa.int32 "YEAR mapped to INT");
    (Re.lits "geometry",
       plain "STRING" pa.string
             "GEOMETRY mapped to STRING (WKT representation expected)") ].

(* ====================================================================== *)
(** ** TYPE MATCHING LOGIC *)
(* ====================================================================== *)

(** [t = mysql_type.lower().strip()] *)
Definition normalize (mysql_type : string) : string :=
  Str.strip (Str.lower mysql_type).

(** The body of the loop at an entry whose pattern matched with [m]. *)
Definition apply_mapping (colname : string) (mp : mapping) (m : Re.matched)
           (verbose : bool) : M (string * pa.DataType) :=
  ' (hive_type, pq_type) <-
      match target mp with
      | Plain h p => ret (h, p)
      | Callable h p =>
          (* p, s = m.groups() *)
          match Re.groups m with
          | [g1; g2] => pq <- lift (p g1 g2) ;; ret (h g1 g2, pq)
          | _ => raise (ValueError "wrong number of values to unpack")
          end
      end ;;
  (if negb (Str.is_empty (note mp)) && verbose
   then info (colname ++ ": " ++ note mp)%string true
   else ret tt) ;;
  ret (hive_type, pq_type).

(** The [for pattern, mapping in MYSQL_TYPE_MAP.items()] loop: the first
    entry whose pattern matches returns; [None] when the loop runs out. *)
Fixpoint first_match (rules : list (Re.pattern * mapping)) (t : string)
  : option (mapping * Re.matched) :=
  match rules with
  | [] => None
  | (pattern, mp) :: rules' =>
      match Re.match_ pattern t with
      | Some m => Some (mp, m)
      | None => first_match rules' t
      end
  end.

Definition unknown_msg (colname mysql_type : string) : string :=
  ("Unknown MySQL type '" ++ mysql_type ++ "' for column '" ++ colname ++ "'")%string.

Definition convert_mysql_type (colname mysql_type : string)
           (strict verbose : bool) : M (string * pa.DataType) :=
  let t := normalize mysql_type in
  match first_match MYSQL_TYPE_MAP t with
  | Some (mp, m) => apply_mapping colname mp m verbose
  | None =>
      (* Unknown type *)
      let msg := unknown_msg colname mysql_type in
      if strict
      then error (msg ++ " (strict mode enabled)")%string ;; sys_exit 1
      else warn (msg ++ ". Using STRING fallback.")%string ;;
           ret ("STRING", pa.string)
  end.

(* ====================================================================== *)
(** ** DDL EXTRACTION + PARSING *)
(* ====================================================================== *)

Definition nl : string := String (ascii_of_nat 10) EmptyString.
Definition dquote : string := String (ascii_of_nat 34) EmptyString.
Definition backtick : ascii := "`"%char.

(** The pattern of [re.findall] in [extract_columns]: a backtick, the
    group [([^`]+)], a backtick. *)
Definition not_backtick (c : ascii) : bool := negb (Ascii.eqb c backtick).
Definition quoted_identifier : Re.pattern :=
  [Re.Lit backtick; Re.Plus true not_backtick; Re.Lit backtick].

(** A resolved column: [(colname, hive_type, pq_type)]. *)
Definition column : Type := (string * string * pa.DataType)%type.

Definition col_name (c : column) : string := fst (fst c).
Definition col_hive (c : column) : string := snd (fst c).
Definition col_parquet (c : column) : pa.DataType := snd c.

(** [line = line.strip().rstrip(",")] *)
Definition clean (line : string) : string :=
  Str.rstrip_chr "," (Str.strip line).

Definition is_column_line (line : string) : bool :=
  Str.startswith "`" line.

Definition is_primary_key_line (line : string) : bool :=
  Str.startswith "PRIMARY KEY" (Str.upper line).

(** One turn of the loop of [extract_columns], from the two lists as they
    stand to the two lists as the turn leaves them. *)
Definition extract_line (strict verbose : bool)
           (acc : list column * list string) (raw : string)
  : M (list column * list string) :=
  let (columns, primary_keys) := acc in
  let line := clean raw in
  columns' <-
    (if is_column_line line
     then
       let parts := Str.split line in
       part0 <- index parts 0 ;;
       let colname := Str.strip_chr backtick part0 in
       coltype <- index parts 1 ;;
       ' (hive_type, pq_type) <-
           convert_mysql_type colname coltype strict verbose ;;
       ret (columns ++ [(colname, hive_type, pq_type)])%list
     else ret columns) ;;
  let primary_keys' :=
    if is_primary_key_line line
    then (primary_keys ++ Re.findall quoted_identifier line)%list
    else primary_keys in
  ret (columns', primary_keys').

(** A [for] loop whose body may raise. *)
Fixpoint for_each {S A : Type} (body : S -> A -> M S) (acc : S) (l : list A)
  : M S :=
  match l with
  | [] => ret acc
  | a :: l' => acc' <- body acc a ;; for_each body acc' l'
  end.

Definition extract_lines (strict verbose : bool)
  : list column * list string -> list string -> M (list column * list string)
  := for_each (extract_line strict verbose).

Definition extract_columns (mysql_ddl : string) (strict verbose : bool)
  : M (list column * list string) :=
  extract_lines strict verbose ([], []) (Str.split_chr (ascii_of_nat 10) mysql_ddl).

(* ====================================================================== *)
(** ** GENERATE OUTPUTS *)
(* ====================================================================== *)

Definition hive_line (pks : list string) (c : column) : string :=
  let '(col, hive_type, _) := c in
  if Str.mem col pks
  then "  `" ++ col ++ "` " ++ hive_type ++ " -- PRIMARY KEY"
  else "  `" ++ col ++ "` " ++ hive_type.

Definition generate_hive_ddl (tbl : string) (columns : list column)
           (pks : list string) : string :=
  let ddl := "CREATE TABLE " ++ tbl ++ " (" ++ nl in
  let lines := List.map (hive_line pks) columns in
  let ddl := ddl ++ Str.join ("," ++ nl) lines in
  ddl ++ nl ++ ")" ++ nl ++ "STORED AS PARQUET;" ++ nl.

Definition parquet_line (c : column) : string :=
  let '(col, _, pq_type) := c in
  "    (" ++ dquote ++ col ++ dquote ++ ", pa." ++ pa.str pq_type ++ "),".

Definition generate_parquet_schema (tbl : string) (columns : list column)
  : string :=
  let out := ([(tbl ++ "_schema = pa.schema([")%string]
                ++ List.map parquet_line columns
                ++ [("])" ++ nl)%string])%list in
  Str.join nl out.

(* ====================================================================== *)
(** ** MAIN LOGIC: what [main] does with the DDL of one table *)
(* ====================================================================== *)

(** The parsed arguments that the core reads. *)
Record Namespace : Type :=
  { args_hive : option string;
    args_parquet : option string;
    args_verbose : bool;
    args_strict : bool }.

(** [if args.hive:], [if args.parquet:] hold at a non-empty string. *)
Definition given (o : option string) : option string :=
  match o with
  | Some s => if Str.is_empty s then None else Some s
  | None => None
  end.

Definition process_table (args : Namespace) (tbl mysql_ddl : string) : M unit :=
  ' (columns, pk_cols) <-
      extract_columns mysql_ddl (args_strict args) (args_verbose args) ;;
  (* Hive Output *)
  (match given (args_hive args) with
   | Some path =>
       let hive_ddl := generate_hive_ddl tbl columns pk_cols in
       emit (Append path (hive_ddl ++ nl ++ nl)) ;;
       ok ("Hive DDL written to: " ++ path) (args_verbose args)
   | None => ret tt
   end) ;;
  (* Parquet Output *)
  (match given (args_parquet args) with
   | Some path =>
       let pq_ddl := generate_parquet_schema tbl columns in
       emit (Append path (pq_ddl ++ nl)) ;;
       ok ("Parquet schema written to: " ++ path) (args_verbose args)
   | None => ret tt
   end).

(* ====================================================================== *)
(** ** INPUT VALIDATION and the run of [main] *)
(* ====================================================================== *)

(** The parsed command line: the fields that the core reads, and those
    that [validate_args] and the loop over the tables read. *)
Record CommandLine : Type :=
  { core_args : Namespace;
    args_password : option string;
    args_ask_pass : bool;
    args_table : string }.

(** The truth value of an optional text: [None] and the empty text are
    false. *)
Definition is_given (o : option string) : bool :=
  match given o with Some _ => true | None => false end.

Definition validate_args (args : CommandLine) : M unit :=
  (if negb (is_given (args_hive (core_args args)))
      && negb (is_given (args_parquet (core_args args)))
   then error "Either --hive or --parquet must be provided." ;; sys_exit 1
   else ret tt) ;;
  (if is_given (args_password args) && args_ask_pass args
   then error "Cannot use both --password and --ask-pass." ;; sys_exit 1
   else ret tt) ;;
  (if Str.is_empty (args_table args)
   then error "You must provide at least one table using --table." ;;
        sys_exit 1
   else ret tt).

(** What the MySQL server does for [main]: [pymysql.connect] raises with a
    message, or the connection is made and [fetchone], after the
    [SHOW CREATE TABLE] of a table, gives no row or a row whose second
    field is the DDL text. *)
Inductive server : Type :=
| Refuses (e : string)
| Serves (show_create_table : string -> option string).

(** [tables = [t.strip() for t in args.table.split(",")]] *)
Definition tables_of (args : CommandLine) : list string :=
  List.map Str.strip (Str.split_chr "," (args_table args)).

(** One turn of the loop over the tables. *)
Definition table_step (db : string -> option string) (args : Namespace)
           (tbl : string) : M unit :=
  info ("Processing table: " ++ tbl) (args_verbose args) ;;
  match db tbl with
  | None => warn ("Table not found: " ++ tbl)      (* then [continue] *)
  | Some mysql_ddl => process_table args tbl mysql_ddl
  end.

(** [main], from the parsed arguments on (the password prompt left out:
    the password goes to the connection only). *)
Definition main (srv : server) (args : CommandLine) : M unit :=
  validate_args args ;;
  let tables := tables_of args in
  info "Connecting to MySQL..." (args_verbose (core_args args)) ;;
  match srv with
  | Refuses e => error ("Connection failed: " ++ e) ;; sys_exit 1
  | Serves db =>
      ok "Connected." (args_verbose (core_args args)) ;;
      for_each (fun _ tbl => table_step db (core_args args) tbl) tt tables ;;
      ok "Completed all tasks." true
  end.

(* ====================================================================== *)
(** ** The lines of a DDL text, as the specification describes them *)
(* ====================================================================== *)

(** The notions with which the parser is specified, written from their
    description and not from the parser: the input lines, a trimmed line,
    a column-declaration line (trimmed, it begins with the backtick), a
    primary-key line (trimmed and upper-cased, it begins with
    [PRIMARY KEY]), the name between the first pair of backticks. *)
Module Decl.

(** A whitespace character. *)
Definition blank (c : ascii) : bool :=
  existsb (Ascii.eqb c)
          (List.map ascii_of_nat [9; 10; 11; 12; 13; 28; 29; 30; 31; 32]).

(** The input lines: the text cut at its newlines, [cur] being the line
    read so far. *)
Fixpoint lines_from (cur : string) (text : string) : list string :=
  match text with
  | EmptyString => [cur]
  | String c text' =>
      if Ascii.eqb c (ascii_of_nat 10)
      then cur :: lines_from EmptyString text'
      else lines_from (cur ++ String c EmptyString) text'
  end.

Definition lines (text : string) : list string :=
  lines_from EmptyString text.

(** A line without the whitespace before it, after it, around it. *)
Fixpoint trim_left (line : string) : string :=
  match line with
  | EmptyString => EmptyString
  | String c line' => if blank c then trim_left line' else line
  end.

Fixpoint trim_right (line : string) : string :=
  match line with
  | EmptyString => EmptyString
  | String c line' =>
      let r := trim_right line' in
      if blank c && (match r with EmptyString => true | _ => false end)
      then EmptyString
      else String c r
  end.

Definition trimmed (line : string) : string := trim_right (trim_left line).

(** A column-declaration line: trimmed, it begins with the backtick. *)
Definition is_column_declaration (line : string) : bool :=
  match trimmed line with
  | String c _ => Ascii.eqb c "`"
  | EmptyString => false
  end.

(** [s] begins with [word] in any letter case, each character of [word]
    being given in upper case and in lower case. *)
Fixpoint begins_with (word : list (ascii * ascii)) (s : string) : bool :=
  match word, s with
  | [], _ => true
  | (u, l) :: word', String c s' =>
      (Ascii.eqb c u || Ascii.eqb c l) && begins_with word' s'
  | _ :: _, EmptyString => false
  end.

Definition PRIMARY_KEY : list (ascii * ascii) :=
  [("P", "p"); ("R", "r"); ("I", "i"); ("M", "m"); ("A", "a"); ("R", "r");
   ("Y", "y"); (" ", " "); ("K", "k"); ("E", "e"); ("Y", "y")]%char.

(** A primary-key line: trimmed and upper-cased, it begins with
    [PRIMARY KEY]. *)
Definition is_primary_key (line : string) : bool :=
  begins_with PRIMARY_KEY (trimmed line).

(** A line that matches one of the two patterns. *)
Definition is_relevant (line : string) : bool :=
  is_column_declaration line || is_primary_key line.

(** The text up to the next backtick, and what follows that backtick when
    there is one. *)
Fixpoint until_backtick (s : string) : string * option string :=
  match s with
  | EmptyString => (EmptyString, None)
  | String c s' =>
      if Ascii.eqb c "`" then (EmptyString, Some s')
      else let (n, r) := until_backtick s' in (String c n, r)
  end.

(** The name that a column-declaration line declares: what stands between
    its first pair of backticks. *)
Definition name (line : string) : string :=
  match trimmed line with
  | String _ s => fst (until_backtick s)
  | EmptyString => EmptyString
  end.

Fixpoint no_blank (s : string) : bool :=
  match s with
  | EmptyString => true
  | String c s' => negb (blank c) && no_blank s'
  end.

(** The quoted name holds no whitespace, its closing backtick is there and
    whitespace follows it. *)
Definition is_plain (line : string) : bool :=
  match trimmed line with
  | String _ s =>
      match until_backtick s with
      | (n, Some (String c _)) => no_blank n && blank c
      | _ => false
      end
  | EmptyString => false
  end.

(** The column-declaration lines of a text, in the order of the text. *)
Definition column_declarations (text : string) : list string :=
  filter is_column_declaration (lines text).

End Decl.

(** The last character of a string. *)
Fixpoint last_char (s : string) : option ascii :=
  match s with
  | EmptyString => None
  | String c EmptyString => Some c
  | String _ s' => last_char s'
  end.

(* ====================================================================== *)
(** ** Vocabulary of the statements *)
(* ====================================================================== *)

(** No pattern of the table matches the normalized type. *)
Definition is_unmapped (mysql_type : string) : bool :=
  forallb (fun rule : Re.pattern * mapping =>
             match Re.match_ (fst rule) (normalize mysql_type) with
             | None => true
             | Some _ => false
             end) MYSQL_TYPE_MAP.

Definition is_return {A} (o : outcome A) : bool :=
  match o with Return _ => true | Raise _ => false end.

Definition is_append (e : event) : bool :=
  match e with Append _ _ => true | Print _ _ => false end.

(** The lines of a DDL text, as the loop of [extract_columns] reads them. *)
Definition lines_of (mysql_ddl : string) : list string :=
  Str.split_chr (ascii_of_nat 10) mysql_ddl.

(** What [extract_columns] reads on a column-declaration line:
    [parts[0].strip("`")] and [parts[1]]. *)
Definition declared_name (line : string) : string :=
  Str.strip_chr backtick (nth 0 (Str.split line) EmptyString).

Definition declared_type (line : string) : string :=
  nth 1 (Str.split line) EmptyString.

(** The resolver returns at this type: a pattern matches and the target
    types can be built, or none matches and strict mode is off. *)
Definition resolves (strict : bool) (mysql_type : string) : bool :=
  match first_match MYSQL_TYPE_MAP (normalize mysql_type) with
  | None => negb strict
  | Some (mp, m) =>
      match target mp with
      | Plain _ _ => true
      | Callable _ pq =>
          match Re.groups m with
          | [g1; g2] => is_return (pq g1 g2)
          | _ => false
          end
      end
  end.

(** A raw line is fit for the loop: when it declares a column it has a
    name and a type, and the type resolves. *)
Definition column_line_ok (strict : bool) (raw : string) : bool :=
  let line := clean raw in
  if is_column_line line
  then (2 <=? List.length (Str.split line))%nat
       && resolves strict (declared_type line)
  else true.

Definition well_formed (strict : bool) (mysql_ddl : string) : bool :=
  forallb (column_line_ok strict) (lines_of mysql_ddl).

(** The cleaned column-declaration lines of a list of raw lines. *)
Definition column_lines (raws : list string) : list string :=
  filter is_column_line (List.map clean raws).

(** A raw line that is neither a column nor a primary-key declaration. *)
Definition is_ignored (raw : string) : bool :=
  negb (is_column_line (clean raw)) && negb (is_primary_key_line (clean raw)).

(** What a raw line adds to [primary_keys]. *)
Definition pk_entry (raw : string) : list string :=
  if is_primary_key_line (clean raw)
  then Re.findall quoted_identifier (clean raw)
  else [].

Definition pk_entries (raws : list string) : list string :=
  flat_map pk_entry raws.

(** The column [c] is what the loop appends at the cleaned line [line]. *)
Definition resolved_as (strict verbose : bool) (line : string) (c : column)
  : Prop :=
  col_name c = declared_name line
  /\ result (convert_mysql_type (declared_name line) (declared_type line)
                                strict verbose)
     = Return (col_hive c, col_parquet c).

(** A computation that appends to no file. *)
Definition prints_only {A} (m : M A) : Prop :=
  Forall (fun e => is_append e = false) (events m).

(** The text of a key line: a head, then quoted identifiers, each one
    followed by some text. *)
Fixpoint quoted_items (items : list (string * string)) : string :=
  match items with
  | [] => EmptyString
  | (id, follow) :: items' =>
      String backtick (id ++ String backtick (follow ++ quoted_items items'))
  end.

Definition item_ok (item : string * string) : bool :=
  negb (Str.is_empty (fst item))
  && Str.all not_backtick (fst item)
  && Str.all not_backtick (snd item).

(** The line that the strict-mode abort prints. *)
Definition strict_abort (colname mysql_type : string) : event :=
  Print RED (unknown_msg colname mysql_type ++ " (strict mode enabled)").

(** A [SHOW CREATE TABLE] text with the three columns and the key of the
    end-to-end scenario. *)
Definition orders_ddl : string :=
  "CREATE TABLE `orders` (" ++ nl ++
  "  `id` int NOT NULL," ++ nl ++
  "  `name` varchar(255) DEFAULT NULL," ++ nl ++
  "  `amount` decimal(10,2) DEFAULT NULL," ++ nl ++
  "  PRIMARY KEY (`id`)" ++ nl ++
  ") ENGINE=InnoDB".

(* ====================================================================== *)
(** ** Vocabulary of the further properties *)
(* ====================================================================== *)

(** The Hive type [h] and the PyArrow type [p] name the same kind of
    value. *)
Definition paired (h : string) (p : pa.DataType) : Prop :=
  match p with
  | pa.bool_ => h = "BOOLEAN"
  | pa.int8 => h = "TINYINT"
  | pa.int16 => h = "SMALLINT"
  | pa.int32 => h = "INT"
  | pa.int64 => h = "BIGINT"
  | pa.float32 => h = "FLOAT"
  | pa.float64 => h = "DOUBLE"
  | pa.decimal128_ precision scale =>
      (1 <= precision <= 38)%N
      /\ exists g1 g2,
           h = "DECIMAL(" ++ g1 ++ "," ++ g2 ++ ")"
           /\ pa.int g1 = Some precision /\ pa.int g2 = Some scale
  | pa.string => h = "STRING"
  | pa.binary => h = "BINARY"
  | pa.date32 => h = "DATE"
  | pa.timestamp u => h = "TIMESTAMP" /\ u = "s"
  end.

(** The line that the fallback prints. *)
Definition fallback_warning (colname mysql_type : string) : event :=
  Print YELLOW (unknown_msg colname mysql_type ++ ". Using STRING fallback.").

(** The warnings of the cleaned column lines whose type no pattern
    matches. *)
Definition fallback_warnings (lines : list string) : list event :=
  flat_map (fun line =>
              if is_unmapped (declared_type line)
              then [fallback_warning (declared_name line) (declared_type line)]
              else []) lines.

(** A line printed by [info]. *)
Definition is_info (e : event) : bool :=
  match e with Print BLUE _ => true | _ => false end.

(** [quiet] is [loud] without the lines of [info]. *)
Definition quieter {A} (quiet loud : M A) : Prop :=
  result quiet = result loud
  /\ events quiet = filter (fun e => negb (is_info e)) (events loud).

(** The two lists of a run, put after [columns] and [primary_keys]. *)
Definition after_lists (columns : list column) (primary_keys : list string)
           (m : M (list column * list string)) : M (list column * list string) :=
  bind m (fun r => ret ((columns ++ fst r)%list, (primary_keys ++ snd r)%list)).

(** The ways in which the parser can stop. *)
Definition parser_failure (strict : bool) (e : exn) : Prop :=
  e = IndexError
  \/ (e = SystemExit 1 /\ strict = true)
  \/ (exists g, (pa.MAX_STR_DIGITS < String.length g)%nat
                /\ e = pa.int_error g)
  \/ e = ValueError "precision should be between 1 and 38"
  \/ e = OverflowError.

(** The text of [n] digits 9. *)
Fixpoint nines (n : nat) : string :=
  match n with
  | O => EmptyString
  | S n' => String "9" (nines n')
  end.

(** Texts without whitespace, without a comma at either end, without a
    newline. *)
Definition not_space (c : ascii) : bool := negb (Str.isspace c).
Definition is_comma (c : ascii) : bool := Ascii.eqb "," c.
Definition not_newline (c : ascii) : bool := negb (Ascii.eqb c (ascii_of_nat 10)).

(** What may follow a part of a line: nothing, or whitespace and then
    anything. *)
Definition part_ends (tail : string) : bool :=
  match tail with
  | EmptyString => true
  | String c _ => Str.isspace c
  end.

(** The text [id] between backticks. *)
Definition quoted (id : string) : string :=
  String backtick (id ++ String backtick EmptyString).

Definition no_newline (s : string) : bool := Str.all not_newline s.

(** The lines of a list that [",\n".join] has put together: each but the
    last ends with a comma. *)
Fixpoint with_commas (l : list string) : list string :=
  match l with
  | [] => []
  | [x] => [x]
  | x :: l' => (x ++ ",") :: with_commas l'
  end.

(** The arguments that [validate_args] lets through. *)
Definition args_valid (args : CommandLine) : bool :=
  (is_given (args_hive (core_args args))
   || is_given (args_parquet (core_args args)))
  && negb (is_given (args_password args) && args_ask_pass args)
  && negb (Str.is_empty (args_table args)).

(** What is appended for a table with these columns and keys. *)
Definition table_appends (args : Namespace) (tbl : string)
           (columns : list column) (pks : list string) : list event :=
  (match given (args_hive args) with
   | Some path => [Append path (generate_hive_ddl tbl columns pks ++ nl ++ nl)]
   | None => []
   end
   ++ match given (args_parquet args) with
      | Some path => [Append path (generate_parquet_schema tbl columns ++ nl)]
      | None => []
      end)%list.

(** What is appended for a table that the server was asked for: nothing
    when it has no row. *)
Definition table_outputs (db : string -> option string) (args : Namespace)
           (tbl : string) : list event :=
  match db tbl with
  | None => []
  | Some mysql_ddl =>
      match result (extract_columns mysql_ddl (args_strict args)
                                    (args_verbose args)) with
      | Return (columns, pks) => table_appends args tbl columns pks
      | Raise _ => []
      end
  end.

(** The table has no row, or a DDL text that the parser reads. *)
Definition table_ok (db : string -> option string) (args : Namespace)
           (tbl : string) : bool :=
  match db tbl with
  | None => true
  | Some mysql_ddl => well_formed (args_strict args) mysql_ddl
  end.

(** A quoted identifier as [re.findall] gives it: not empty, without
    backtick. *)
Definition identifier_ok (id : string) : bool :=
  negb (Str.is_empty id) && Str.all not_backtick id.

(** A column as the parser returns it: a name without whitespace and two
    types of the same kind. *)
Definition column_ok (c : column) : Prop :=
  Str.all not_space (col_name c) = true
  /\ paired (col_hive c) (col_parquet c).

(* ====================================================================== *)
(** ** Laws of the monad and of the loop *)
(* ====================================================================== *)

Lemma bind_ret_l {A B} (a : A) (f : A -> M B) : bind (ret a) f = f a.
Proof. unfold bind, ret. destruct (f a) as [evs r]. reflexivity. Qed.

Lemma bind_ret_r {A} (m : M A) : bind m ret = m.
Proof.
  destruct m as [evs [a | e]]; unfold bind, ret; simpl; trivial.
  now rewrite app_nil_r.
Qed.

Lemma bind_assoc {A B C} (m : M A) (f : A -> M B) (g : B -> M C) :
  bind (bind m f) g = bind m (fun a => bind (f a) g).
Proof.
  destruct m as [evs [a | e]]; simpl; trivial.
  destruct (f a) as [evs1 [b | e1]]; simpl; trivial.
  destruct (g b) as [evs2 r]. now rewrite app_assoc.
Qed.

Lemma bind_return {A B} evs (a : A) (f : A -> M B) :
  bind (evs, Return a) f = ((evs ++ events (f a))%list, result (f a)).
Proof. unfold bind, events, result. now destruct (f a). Qed.

Lemma bind_raise {A B} evs e (f : A -> M B) :
  bind (evs, Raise e) f = (evs, Raise e).
Proof. reflexivity. Qed.

Lemma bind_ext {A B} (m : M A) (f g : A -> M B) :
  (forall a, f a = g a) -> bind m f = bind m g.
Proof.
  intros E. destruct m as [evs [a | e]]; simpl; trivial. now rewrite E.
Qed.

Lemma for_each_cons {S A} (body : S -> A -> M S) (a : A) (l : list A) (acc : S) :
  for_each body acc (a :: l)
  = bind (body acc a) (fun acc' => for_each body acc' l).
Proof. reflexivity. Qed.

Lemma for_each_app {S A} (body : S -> A -> M S) (l1 l2 : list A) (acc : S) :
  for_each body acc (l1 ++ l2)
  = bind (for_each body acc l1) (fun acc' => for_each body acc' l2).
Proof.
  revert acc. induction l1 as [| a l1 IH]; intros acc.
  - symmetry. exact (bind_ret_l acc (fun acc' => for_each body acc' l2)).
  - change (bind (body acc a) (fun acc' => for_each body acc' (l1 ++ l2))
            = bind (bind (body acc a) (fun acc' => for_each body acc' l1))
                   (fun acc' => for_each body acc' l2)).
    rewrite bind_assoc. apply bind_ext, IH.
Qed.

(* ====================================================================== *)
(** ** The resolver *)
(* ====================================================================== *)

Lemma first_match_none rules t :
  first_match rules t = None
  <-> forallb (fun rule : Re.pattern * mapping =>
                 match Re.match_ (fst rule) t with
                 | None => true
                 | Some _ => false
                 end) rules = true.
Proof.
  induction rules as [| [pattern mp] rules IH]; simpl.
  - tauto.
  - destruct (Re.match_ pattern t); simpl.
    + split; discriminate.
    + exact IH.
Qed.

Lemma unmapped_first_match mysql_type :
  is_unmapped mysql_type = true ->
  first_match MYSQL_TYPE_MAP (normalize mysql_type) = None.
Proof. intros H. now apply first_match_none. Qed.

(** The message of the strict-mode abort. *)
Lemma convert_unmapped_strict colname mysql_type verbose :
  is_unmapped mysql_type = true ->
  convert_mysql_type colname mysql_type true verbose
  = ([Print RED (unknown_msg colname mysql_type ++ " (strict mode enabled)")],
     Raise (SystemExit 1)).
Proof.
  intros H. unfold convert_mysql_type.
  now rewrite (unmapped_first_match _ H).
Qed.

(** C2: at the declared type [datetime] the resolver returns the
    calendar-date pair, [DATE] and [date32], not the timestamp pair: the
    entry [date] stands before the entry [datetime] and matches first. *)
Theorem datetime_resolves_to_date colname strict verbose :
  convert_mysql_type colname "datetime" strict verbose
  = ([], Return ("DATE", pa.date32)).
Proof. destruct verbose; reflexivity. Qed.

Example timestamp_resolves_to_timestamp colname strict verbose :
  convert_mysql_type colname "timestamp" strict verbose
  = ([], Return ("TIMESTAMP", pa.timestamp "s")).
Proof. destruct verbose; reflexivity. Qed.

(** C3: a type whose normalized text begins with [tinyint(1)] resolves by
    the boolean entry, to [BOOLEAN] and [bool], although the pattern of the
    1-byte integer entry matches it as well. *)
Theorem tinyint1_resolves_to_boolean colname mysql_type strict verbose tail :
  normalize mysql_type = "tinyint(1)" ++ tail ->
  convert_mysql_type colname mysql_type strict verbose
  = ((if verbose
      then [Print BLUE (colname ++ ": Mapped MySQL tinyint(1) to BOOLEAN")]
      else []),
     Return ("BOOLEAN", pa.bool_))
  /\ Re.match_ (Re.lits "tinyint") (normalize mysql_type)
     = Some {| Re.groups := []; Re.rest := "(1)" ++ tail |}
  /\ result (convert_mysql_type colname mysql_type strict verbose)
     <> Return ("TINYINT", pa.int8).
Proof.
  intros H. unfold convert_mysql_type. rewrite H.
  destruct verbose; cbn; repeat split; discriminate.
Qed.

Lemma tinyint1_resolves_to_boolean_witness :
  convert_mysql_type "is_active" " TINYINT(1) " false true
  = ([Print BLUE "is_active: Mapped MySQL tinyint(1) to BOOLEAN"],
     Return ("BOOLEAN", pa.bool_))
  /\ Re.match_ (Re.lits "tinyint") (normalize " TINYINT(1) ")
     = Some {| Re.groups := []; Re.rest := "(1)" |}
  /\ result (convert_mysql_type "is_active" " TINYINT(1) " false true)
     <> Return ("TINYINT", pa.int8).
Proof.
  exact (tinyint1_resolves_to_boolean "is_active" " TINYINT(1) " false true ""
                                      eq_refl).
Defined.

(** C6: at a type that no pattern matches, with strict mode off, the
    resolver returns the pair [STRING], [string] and prints one warning and
    nothing else, whether verbose is on or off. *)
Theorem unmapped_type_falls_back_with_one_warning colname mysql_type verbose :
  is_unmapped mysql_type = true ->
  convert_mysql_type colname mysql_type false verbose
  = ([Print YELLOW
        (unknown_msg colname mysql_type ++ ". Using STRING fallback.")],
     Return ("STRING", pa.string)).
Proof.
  intros H. unfold convert_mysql_type.
  now rewrite (unmapped_first_match _ H).
Qed.

Lemma unmapped_type_falls_back_with_one_warning_witness :
  convert_mysql_type "flags" "bit(8)" false false
  = ([Print YELLOW
        "Unknown MySQL type 'bit(8)' for column 'flags'. Using STRING fallback."],
     Return ("STRING", pa.string)).
Proof.
  exact (unmapped_type_falls_back_with_one_warning "flags" "bit(8)" false
                                                   eq_refl).
Defined.

(* ====================================================================== *)
(** ** Strings and matching *)
(* ====================================================================== *)

Section StringFacts.

Lemma append_assoc (a b c : string) : (a ++ b) ++ c = a ++ (b ++ c).
Proof. induction a as [| x a IH]; simpl; congruence. Qed.

Lemma append_nil_r (a : string) : a ++ "" = a.
Proof. induction a as [| x a IH]; simpl; congruence. Qed.

Lemma length_append (a b : string) :
  String.length (a ++ b) = String.length a + String.length b.
Proof. induction a as [| x a IH]; simpl; congruence. Qed.

Lemma map_append f (a b : string) :
  Str.map f (a ++ b) = Str.map f a ++ Str.map f b.
Proof. induction a as [| x a IH]; simpl; congruence. Qed.

Lemma all_append cls (a b : string) :
  Str.all cls (a ++ b) = Str.all cls a && Str.all cls b.
Proof.
  induction a as [| x a IH]; simpl; trivial.
  now rewrite IH, andb_assoc.
Qed.

Lemma all_ext (f g : ascii -> bool) (s : string) :
  (forall c, f c = g c) -> Str.all f s = Str.all g s.
Proof. intros E. induction s as [| x s IH]; simpl; congruence. Qed.

Lemma drop_length_append (a b : string) :
  Str.drop (String.length a) (a ++ b) = b.
Proof. induction a as [| x a IH]; simpl; trivial. Qed.

Lemma take_length_append (a b : string) :
  Str.take (String.length a) (a ++ b) = a.
Proof.
  induction a as [| x a IH]; simpl.
  - now destruct b.
  - now rewrite IH.
Qed.

Lemma run_length_append cls (a b : string) :
  Str.all cls a = true ->
  Str.run_length cls (a ++ b) = String.length a + Str.run_length cls b.
Proof.
  induction a as [| x a IH]; simpl; trivial.
  intros H. apply andb_prop in H as [Hx Ha]. now rewrite Hx, IH.
Qed.

Lemma rstrip_by_last cls (a : string) (c : ascii) :
  cls c = false ->
  Str.rstrip_by cls (a ++ String c "") = a ++ String c "".
Proof.
  intros Hc. induction a as [| x a IH]; simpl.
  - now rewrite Hc.
  - rewrite IH. now destruct a.
Qed.

Lemma lower_char_digit c : Str.isdigit c = true -> Str.lower_char c = c.
Proof.
  unfold Str.isdigit, Str.lower_char. intros H.
  apply andb_prop in H as [_ H]. apply Nat.leb_le in H.
  destruct (65 <=? nat_of_ascii c)%nat eqn:E; trivial.
  apply Nat.leb_le in E. lia.
Qed.

Lemma lower_digits (d : string) : Str.all Str.isdigit d = true -> Str.lower d = d.
Proof.
  induction d as [| x d IH]; simpl; trivial.
  intros H. apply andb_prop in H as [Hx Hd].
  unfold Str.lower in *. simpl. now rewrite lower_char_digit, IH.
Qed.

End StringFacts.

Section Matching.

(** A repetition followed by something outside its class takes the whole
    run at the first try. *)
Lemma match_plus_run capture cls p' (run s' : string) m :
  Str.all cls run = true ->
  run <> "" ->
  Str.run_length cls s' = 0 ->
  Re.match_ p' s' = Some m ->
  Re.match_ (Re.Plus capture cls :: p') (run ++ s')
  = Some {| Re.groups := ((if capture then [run] else []) ++ Re.groups m)%list;
            Re.rest := Re.rest m |}.
Proof.
  intros Hall Hne Hs' Hm. simpl.
  rewrite (run_length_append _ _ _ Hall), Hs', Nat.add_0_r.
  destruct run as [| x run]; [congruence |].
  simpl. rewrite drop_length_append, Hm, take_length_append. reflexivity.
Qed.

Lemma match_lit c p (s : string) :
  Re.match_ (Re.Lit c :: p) (String c s) = Re.match_ p s.
Proof. simpl. now rewrite Ascii.eqb_refl. Qed.

Lemma first_match_skip pattern mp rules t :
  Re.match_ pattern t = None ->
  first_match ((pattern, mp) :: rules) t = first_match rules t.
Proof. intros H. simpl. now rewrite H. Qed.

Lemma first_match_here pattern mp rules t m :
  Re.match_ pattern t = Some m ->
  first_match ((pattern, mp) :: rules) t = Some (mp, m).
Proof. intros H. simpl. now rewrite H. Qed.

End Matching.

(* ====================================================================== *)
(** ** Decimal types *)
(* ====================================================================== *)

Section Decimal.

Lemma uint_digits d : Str.all Str.isdigit (NilEmpty.string_of_uint d) = true.
Proof. induction d; simpl; trivial. Qed.

Lemma dec_digits n : Str.all Str.isdigit (pa.dec n) = true.
Proof.
  unfold pa.dec, NilZero.string_of_uint.
  destruct (N.to_uint n) eqn:E; try (rewrite <- E; apply uint_digits).
  reflexivity.
Qed.

Lemma to_uint_nonnil n : N.to_uint n <> Decimal.Nil.
Proof.
  destruct n as [| q]; simpl; [discriminate |].
  apply DecimalPos.Unsigned.to_uint_nonnil.
Qed.

Lemma dec_nonempty n : pa.dec n <> "".
Proof.
  unfold pa.dec, NilZero.string_of_uint.
  destruct (N.to_uint n); simpl; discriminate.
Qed.

Lemma int_dec n : (n <= 38)%N -> pa.int (pa.dec n) = Some n.
Proof.
  intros H.
  assert (E : exists k, (k <= 38)%nat /\ n = N.of_nat k)
    by (exists (N.to_nat n); split; lia).
  destruct E as (k & Hk & ->).
  do 39 (destruct k as [| k]; [vm_compute; reflexivity |]). lia.
Qed.

Lemma decimal128_in_range p s :
  (1 <= p <= 38)%N -> (s <= p)%N ->
  pa.decimal128 p s = Return (pa.decimal128_ p s).
Proof.
  intros Hp Hs. unfold pa.decimal128, pa.INT_MAX.
  destruct (N.ltb_spec 2147483647 p); [lia |].
  destruct (N.ltb_spec 2147483647 s); [lia |].
  destruct (N.ltb_spec p 1); [lia |].
  destruct (N.ltb_spec 38 p); [lia |].
  reflexivity.
Qed.

Lemma decimal_pattern_matches (dp ds tail : string) :
  Str.all Str.isdigit dp = true -> dp <> "" ->
  Str.all Str.isdigit ds = true -> ds <> "" ->
  Re.match_ (Re.lits "decimal(" ++ [digits_group] ++ Re.lits ","
                                ++ [digits_group] ++ Re.lits ")")%list
            ("decimal(" ++ dp ++ "," ++ ds ++ ")" ++ tail)
  = Some {| Re.groups := [dp; ds]; Re.rest := tail |}.
Proof.
  intros Hp Np Hs Ns.
  change (Re.match_ (digits_group :: Re.Lit "," :: digits_group :: Re.lits ")")
                    (dp ++ String "," (ds ++ String ")" tail))
          = Some {| Re.groups := [dp; ds]; Re.rest := tail |}).
  unfold digits_group.
  rewrite (match_plus_run true Str.isdigit _ dp _
             {| Re.groups := [ds]; Re.rest := tail |}); trivial.
  rewrite match_lit.
  now rewrite (match_plus_run true Str.isdigit _ ds _
                 {| Re.groups := []; Re.rest := tail |}).
Qed.

(** The resolver at a normalized text [decimal(dp,ds)...], for any two
    runs of digits. *)
Lemma convert_decimal colname mysql_type strict verbose dp ds tail p s :
  normalize mysql_type = "decimal(" ++ dp ++ "," ++ ds ++ ")" ++ tail ->
  Str.all Str.isdigit dp = true -> dp <> "" ->
  Str.all Str.isdigit ds = true -> ds <> "" ->
  pa.int dp = Some p -> pa.int ds = Some s ->
  convert_mysql_type colname mysql_type strict verbose
  = bind (lift (pa.decimal128 p s))
         (fun pq => ret ("DECIMAL(" ++ dp ++ "," ++ ds ++ ")", pq)).
Proof.
  intros Hn Hp Np Hs Ns Ip Is. unfold convert_mysql_type. rewrite Hn.
  unfold MYSQL_TYPE_MAP.
  do 8 (rewrite first_match_skip by reflexivity).
  erewrite first_match_here by (now apply decimal_pattern_matches).
  unfold apply_mapping. cbn [target note Re.groups].
  rewrite Ip, Is.
  destruct (pa.decimal128 p s) as [pq | e]; destruct verbose; reflexivity.
Qed.

Lemma normalize_decimal (dp ds : string) :
  Str.all Str.isdigit dp = true ->
  Str.all Str.isdigit ds = true ->
  normalize ("decimal(" ++ dp ++ "," ++ ds ++ ")")
  = "decimal(" ++ dp ++ "," ++ ds ++ ")".
Proof.
  intros Hp Hs. unfold normalize.
  assert (L : Str.lower ("decimal(" ++ dp ++ "," ++ ds ++ ")")
              = "decimal(" ++ dp ++ "," ++ ds ++ ")").
  { unfold Str.lower. rewrite !map_append.
    fold Str.lower. now rewrite (lower_digits dp), (lower_digits ds). }
  rewrite L. unfold Str.strip, Str.strip_by.
  replace ("decimal(" ++ dp ++ "," ++ ds ++ ")")
    with (("decimal(" ++ dp ++ "," ++ ds) ++ String ")" "")
    by (now rewrite !append_assoc).
  now rewrite rstrip_by_last.
Qed.

End Decimal.

(** C4, for the precisions that a 128-bit decimal holds: with [p] from 1
    to 38 and a scale [s] up to [p], the type [decimal(p,s)] resolves to
    [DECIMAL(p,s)] and to the 128-bit decimal of precision [p] and scale
    [s], which prints as [decimal128(p, s)]. *)
Theorem decimal_carries_precision_and_scale colname strict verbose (p s : N) :
  (1 <= p <= 38)%N -> (s <= p)%N ->
  convert_mysql_type colname
                     ("decimal(" ++ pa.dec p ++ "," ++ pa.dec s ++ ")")
                     strict verbose
  = ([], Return ("DECIMAL(" ++ pa.dec p ++ "," ++ pa.dec s ++ ")",
                 pa.decimal128_ p s))
  /\ pa.str (pa.decimal128_ p s)
     = "decimal128(" ++ pa.dec p ++ ", " ++ pa.dec s ++ ")".
Proof.
  intros Hp Hs. split; [| reflexivity].
  rewrite (convert_decimal colname _ strict verbose
             (pa.dec p) (pa.dec s) "" p s);
    auto using dec_digits, dec_nonempty.
  - now rewrite decimal128_in_range.
  - rewrite append_nil_r. apply normalize_decimal; apply dec_digits.
  - apply int_dec; lia.
  - apply int_dec; lia.
Qed.

Lemma decimal_carries_precision_and_scale_witness :
  convert_mysql_type "amount" "decimal(10,2)" false false
  = ([], Return ("DECIMAL(10,2)", pa.decimal128_ 10 2))
  /\ pa.str (pa.decimal128_ 10 2) = "decimal128(10, 2)".
Proof.
  apply (decimal_carries_precision_and_scale "amount" false false 10 2); lia.
Defined.

(** C4 does not hold for every [p >= s >= 0] with [p > 0]: at
    [decimal(39,2)] the resolver returns no pair of types, since
    [pa.decimal128] refuses a precision above 38. *)
Lemma decimal_precision_39_is_refused :
  ~ (forall p s : N,
        (s <= p)%N -> (0 < p)%N ->
        result (convert_mysql_type
                  "amount" ("decimal(" ++ pa.dec p ++ "," ++ pa.dec s ++ ")")
                  false false)
        = Return ("DECIMAL(" ++ pa.dec p ++ "," ++ pa.dec s ++ ")",
                  pa.decimal128_ p s)).
Proof.
  intros H. specialize (H 39%N 2%N). cbv in H.
  discriminate (H ltac:(discriminate) eq_refl).
Qed.

(* ====================================================================== *)
(** ** One line of the DDL *)
(* ====================================================================== *)

Section OneLine.

Variables strict verbose : bool.

Lemma column_line_not_primary_key line :
  is_column_line line = true -> is_primary_key_line line = false.
Proof.
  unfold is_column_line, is_primary_key_line, Str.startswith.
  destruct line as [| c line]; [discriminate |].
  change (Ascii.eqb "`" c && true = true ->
          Ascii.eqb "P" (Str.upper_char c)
          && Str.startswith "RIMARY KEY" (Str.upper line) = false).
  rewrite andb_true_r. intros H. apply Ascii.eqb_eq in H. now subst c.
Qed.

Lemma extract_line_other cols pks raw :
  is_column_line (clean raw) = false ->
  extract_line strict verbose (cols, pks) raw
  = ret (cols, (pks ++ pk_entry raw)%list).
Proof.
  intros H. unfold extract_line, pk_entry. rewrite H, bind_ret_l.
  destruct (is_primary_key_line (clean raw)); trivial.
  now rewrite app_nil_r.
Qed.

Lemma extract_line_ignored acc raw :
  is_ignored raw = true -> extract_line strict verbose acc raw = ret acc.
Proof.
  unfold is_ignored. intros H. apply andb_prop in H as [Hc Hk].
  apply negb_true_iff in Hc, Hk. destruct acc as [cols pks].
  rewrite extract_line_other by assumption.
  unfold pk_entry. now rewrite Hk, app_nil_r.
Qed.

Lemma extract_line_column cols pks raw part0 coltype more :
  is_column_line (clean raw) = true ->
  Str.split (clean raw) = part0 :: coltype :: more ->
  extract_line strict verbose (cols, pks) raw
  = bind (convert_mysql_type (Str.strip_chr backtick part0) coltype
                             strict verbose)
         (fun tys => ret ((cols ++ [(Str.strip_chr backtick part0,
                                     fst tys, snd tys)])%list, pks)).
Proof.
  intros Hc Hs. unfold extract_line.
  rewrite Hc, Hs, (column_line_not_primary_key _ Hc).
  unfold index; simpl nth_error. cbv beta iota.
  rewrite bind_ret_l. cbv beta. rewrite bind_ret_l. cbv beta.
  rewrite !bind_assoc. apply bind_ext. intros [h p].
  now rewrite bind_ret_l.
Qed.

Lemma extract_line_short acc raw :
  is_column_line (clean raw) = true ->
  (List.length (Str.split (clean raw)) < 2)%nat ->
  extract_line strict verbose acc raw = ([], Raise IndexError).
Proof.
  intros Hc Hs. destruct acc as [cols pks]. unfold extract_line. rewrite Hc.
  destruct (Str.split (clean raw)) as [| part0 [| coltype more]];
    simpl in Hs; [reflexivity | reflexivity | lia].
Qed.

End OneLine.

(* ====================================================================== *)
(** ** The parser appends to no file *)
(* ====================================================================== *)

Section PrintsOnly.

Lemma prints_only_ret {A} (a : A) : prints_only (ret a).
Proof. constructor. Qed.

Lemma prints_only_raise {A} e : prints_only (@raise A e).
Proof. constructor. Qed.

Lemma prints_only_lift {A} (o : outcome A) : prints_only (lift o).
Proof. constructor. Qed.

Lemma prints_only_print c msg : prints_only (emit (Print c msg)).
Proof. repeat constructor. Qed.

Lemma prints_only_bind {A B} (m : M A) (f : A -> M B) :
  prints_only m -> (forall a, prints_only (f a)) -> prints_only (bind m f).
Proof.
  unfold prints_only. destruct m as [evs [a | e]]; intros Hm Hf; simpl in *.
  - specialize (Hf a). destruct (f a) as [evs' r]. simpl in *.
    apply Forall_app. now split.
  - exact Hm.
Qed.

Lemma prints_only_info msg enabled : prints_only (info msg enabled).
Proof. destruct enabled; [apply prints_only_print | apply prints_only_ret]. Qed.

End PrintsOnly.

Create HintDb prints discriminated.
#[local] Hint Resolve prints_only_ret prints_only_raise prints_only_lift
  prints_only_print prints_only_info : prints.
#[local] Hint Extern 2 (prints_only (bind _ _)) =>
  apply prints_only_bind; [| intros ?] : prints.
#[local] Hint Extern 3 (prints_only (if ?b then _ else _)) => destruct b : prints.
#[local] Hint Extern 3 (prints_only (match ?x with _ => _ end)) =>
  destruct x : prints.

Section ParserPrints.

Variables strict verbose : bool.

Lemma convert_prints_only colname mysql_type :
  prints_only (convert_mysql_type colname mysql_type strict verbose).
Proof.
  unfold convert_mysql_type, apply_mapping, error, warn, sys_exit.
  destruct (first_match MYSQL_TYPE_MAP (normalize mysql_type)) as [[mp m] |].
  - destruct (target mp); auto 10 with prints.
  - destruct strict; auto 10 with prints.
Qed.

Lemma extract_line_prints_only acc raw :
  prints_only (extract_line strict verbose acc raw).
Proof.
  destruct acc as [cols pks]. unfold extract_line, index.
  pose proof convert_prints_only.
  auto 12 with prints.
Qed.

Lemma extract_lines_prints_only raws acc :
  prints_only (extract_lines strict verbose acc raws).
Proof.
  revert acc. induction raws as [| raw raws IH]; intros acc.
  - apply prints_only_ret.
  - apply prints_only_bind; [apply extract_line_prints_only | exact IH].
Qed.

End ParserPrints.

(* ====================================================================== *)
(** ** The loop over the lines *)
(* ====================================================================== *)

Section Loop.

Variables strict verbose : bool.

Lemma resolves_returns colname mysql_type :
  resolves strict mysql_type = true ->
  exists evs tys,
    convert_mysql_type colname mysql_type strict verbose = (evs, Return tys).
Proof.
  unfold resolves, convert_mysql_type, apply_mapping.
  destruct (first_match MYSQL_TYPE_MAP (normalize mysql_type)) as [[mp m] |].
  - destruct (target mp) as [h p | h pq].
    + intros _. rewrite bind_ret_l.
      destruct (negb (Str.is_empty (note mp)) && verbose);
        do 2 eexists; reflexivity.
    + destruct (Re.groups m) as [| g1 [| g2 [| g3 gs]]]; try discriminate.
      destruct (pq g1 g2) as [p | e]; [intros _ | discriminate].
      simpl. destruct (negb (Str.is_empty (note mp)) && verbose);
        do 2 eexists; reflexivity.
  - destruct strict; [discriminate | intros _]. do 2 eexists; reflexivity.
Qed.

Lemma pk_entries_app raws1 raws2 :
  pk_entries (raws1 ++ raws2) = (pk_entries raws1 ++ pk_entries raws2)%list.
Proof. apply flat_map_app. Qed.

Lemma pk_entries_none raws :
  forallb (fun raw => negb (is_primary_key_line (clean raw))) raws = true ->
  pk_entries raws = [].
Proof.
  induction raws as [| raw raws IH]; simpl; trivial.
  intros H. apply andb_prop in H as [Hk Hr]. apply negb_true_iff in Hk.
  unfold pk_entry. now rewrite Hk, IH.
Qed.

(** On lines that are fit for it the loop returns: it has appended one
    column per column-declaration line, in the order of the lines, and the
    identifiers of the key lines. *)
Lemma extract_lines_returns raws :
  forallb (column_line_ok strict) raws = true ->
  forall cols pks,
  exists evs cols',
    extract_lines strict verbose (cols, pks) raws
    = (evs, Return ((cols ++ cols')%list, (pks ++ pk_entries raws)%list))
    /\ Forall2 (resolved_as strict verbose) (column_lines raws) cols'.
Proof.
  induction raws as [| raw raws IH]; intros Hok cols pks.
  - exists [], []. simpl. rewrite !app_nil_r. split; [reflexivity | constructor].
  - simpl in Hok. apply andb_prop in Hok as [Hraw Hraws].
    specialize (IH Hraws).
    unfold extract_lines in *. rewrite for_each_cons.
    unfold column_lines in *.
    change (filter is_column_line (List.map clean (raw :: raws)))
      with (if is_column_line (clean raw)
            then clean raw :: filter is_column_line (List.map clean raws)
            else filter is_column_line (List.map clean raws)).
    unfold column_line_ok in Hraw.
    destruct (is_column_line (clean raw)) eqn:Hc.
    + apply andb_prop in Hraw as [Hlen Hres].
      unfold declared_type in Hres.
      destruct (Str.split (clean raw)) as [| part0 [| coltype more]] eqn:Hs;
        try discriminate.
      simpl in Hres.
      destruct (resolves_returns (Str.strip_chr backtick part0) _ Hres)
        as (evs1 & [h p] & Hconv).
      rewrite (extract_line_column strict verbose _ _ _ _ _ _ Hc Hs), Hconv.
      destruct (IH (cols ++ [(Str.strip_chr backtick part0, h, p)])%list pks)
        as (evs2 & cols2 & Hrun & Hcols).
      exists (evs1 ++ evs2)%list, ((Str.strip_chr backtick part0, h, p) :: cols2).
      split.
      * simpl. rewrite Hrun. simpl. rewrite app_nil_r.
        unfold pk_entry at 1.
        rewrite (column_line_not_primary_key _ Hc). simpl.
        now rewrite <- app_assoc.
      * constructor; [| exact Hcols].
        unfold resolved_as, declared_name, declared_type.
        rewrite Hs. simpl. now rewrite Hconv.
    + rewrite (extract_line_other strict verbose _ _ _ Hc).
      rewrite bind_ret_l.
      destruct (IH cols (pks ++ pk_entry raw)%list)
        as (evs2 & cols2 & Hrun & Hcols).
      exists evs2, cols2. split; [| exact Hcols].
      rewrite Hrun. simpl. now rewrite <- app_assoc.
Qed.

(** Dropping the lines that are neither column nor key declarations leaves
    the run of the loop as it is. *)
Lemma extract_lines_ignored raws acc :
  extract_lines strict verbose acc (filter (fun raw => negb (is_ignored raw)) raws)
  = extract_lines strict verbose acc raws.
Proof.
  revert acc. induction raws as [| raw raws IH]; intros acc; trivial.
  unfold extract_lines in *. simpl.
  destruct (is_ignored raw) eqn:Hi; simpl.
  - rewrite (extract_line_ignored strict verbose _ _ Hi), bind_ret_l. apply IH.
  - apply bind_ext. intros acc'. apply IH.
Qed.

End Loop.

(* ====================================================================== *)
(** ** Quoted identifiers on a key line *)
(* ====================================================================== *)

Section QuotedIdentifiers.

Lemma findall_from_skip p (a b : string) :
  Re.findall_from p (String.length a) (a ++ b) = Re.findall_from p 0 b.
Proof.
  induction a as [| x a IH]; simpl; [now destruct b | exact IH].
Qed.

Lemma findall_from_pass (a b : string) :
  Str.all not_backtick a = true ->
  Re.findall_from quoted_identifier 0 (a ++ b)
  = Re.findall_from quoted_identifier 0 b.
Proof.
  induction a as [| x a IH]; trivial.
  intros H. apply andb_prop in H as [Hx Ha].
  unfold not_backtick in Hx. apply negb_true_iff in Hx.
  change (match Re.match_ quoted_identifier (String x (a ++ b)) with
          | Some m =>
              (Re.groups m
               ++ Re.findall_from quoted_identifier
                    (String.length (String x (a ++ b))
                     - String.length (Re.rest m) - 1) (a ++ b))%list
          | None => Re.findall_from quoted_identifier 0 (a ++ b)
          end = Re.findall_from quoted_identifier 0 b).
  unfold quoted_identifier at 1.
  change (Re.match_ (Re.Lit backtick :: ?p) (String x ?s))
    with (if Ascii.eqb x backtick then Re.match_ p s else None).
  rewrite Hx. now apply IH.
Qed.

Lemma match_quoted (id tail : string) :
  Str.all not_backtick id = true -> id <> "" ->
  Re.match_ quoted_identifier
            (String backtick (id ++ String backtick tail))
  = Some {| Re.groups := [id]; Re.rest := tail |}.
Proof.
  intros Hid Hne. unfold quoted_identifier. rewrite match_lit.
  now rewrite (match_plus_run true not_backtick _ id _
                 {| Re.groups := []; Re.rest := tail |}).
Qed.

Lemma findall_from_quoted (id tail : string) :
  Str.all not_backtick id = true -> id <> "" ->
  Re.findall_from quoted_identifier 0
                  (String backtick (id ++ String backtick tail))
  = id :: Re.findall_from quoted_identifier 0 tail.
Proof.
  intros Hid Hne.
  change (match Re.match_ quoted_identifier
                          (String backtick (id ++ String backtick tail)) with
          | Some m =>
              (Re.groups m
               ++ Re.findall_from quoted_identifier
                    (String.length (String backtick (id ++ String backtick tail))
                     - String.length (Re.rest m) - 1)
                    (id ++ String backtick tail))%list
          | None =>
              Re.findall_from quoted_identifier 0 (id ++ String backtick tail)
          end = id :: Re.findall_from quoted_identifier 0 tail).
  rewrite (match_quoted id tail Hid Hne). cbn [Re.groups Re.rest app].
  f_equal.
  replace (String.length (String backtick (id ++ String backtick tail))
           - String.length tail - 1)
    with (String.length (id ++ String backtick ""))
    by (cbn [String.length]; rewrite !length_append; cbn [String.length]; lia).
  replace (id ++ String backtick tail)
    with ((id ++ String backtick "") ++ tail)
    by (now rewrite append_assoc).
  apply findall_from_skip.
Qed.

Lemma findall_quoted_items (head : string) items :
  Str.all not_backtick head = true ->
  forallb item_ok items = true ->
  Re.findall quoted_identifier (head ++ quoted_items items)
  = List.map fst items.
Proof.
  intros Hhead Hitems. unfold Re.findall.
  rewrite findall_from_pass by assumption. clear head Hhead.
  induction items as [| [id follow] items IH]; trivial.
  simpl in Hitems. apply andb_prop in Hitems as [Hitem Hitems].
  unfold item_ok in Hitem. simpl in Hitem.
  apply andb_prop in Hitem as [Hitem Hfollow].
  apply andb_prop in Hitem as [Hne Hid].
  simpl quoted_items.
  rewrite findall_from_quoted; trivial.
  - rewrite findall_from_pass by assumption. simpl. now rewrite IH.
  - destruct id; [discriminate | discriminate].
Qed.

End QuotedIdentifiers.

(* ====================================================================== *)
(** ** The parser and the generators *)
(* ====================================================================== *)

Section Parser.

Variables strict verbose : bool.

(** The loop stops at the first line that raises. *)
Lemma extract_columns_stops mysql_ddl before raw after evs acc evs' e :
  lines_of mysql_ddl = (before ++ raw :: after)%list ->
  extract_lines strict verbose ([], []) before = (evs, Return acc) ->
  extract_line strict verbose acc raw = (evs', Raise e) ->
  extract_columns mysql_ddl strict verbose = ((evs ++ evs')%list, Raise e).
Proof.
  intros Hl Hb Hr. unfold extract_columns. fold (lines_of mysql_ddl).
  rewrite Hl. unfold extract_lines in *.
  now rewrite for_each_app, Hb, bind_return, for_each_cons, Hr.
Qed.

Lemma extract_lines_all_ignored raws acc :
  forallb is_ignored raws = true ->
  extract_lines strict verbose acc raws = ret acc.
Proof.
  induction raws as [| raw raws IH]; trivial.
  simpl. intros H. apply andb_prop in H as [Hraw Hraws].
  unfold extract_lines in *. rewrite for_each_cons.
  rewrite (extract_line_ignored strict verbose _ _ Hraw), bind_ret_l. auto.
Qed.

Lemma process_table_raises args tbl mysql_ddl evs e :
  extract_columns mysql_ddl (args_strict args) (args_verbose args)
  = (evs, Raise e) ->
  process_table args tbl mysql_ddl = (evs, Raise e).
Proof. intros H. unfold process_table. now rewrite H. Qed.

End Parser.

Lemma resolved_names strict verbose lines columns :
  Forall2 (resolved_as strict verbose) lines columns ->
  List.map col_name columns = List.map declared_name lines.
Proof.
  induction 1 as [| line c lines columns [Hn _] _ IH]; simpl; congruence.
Qed.

(** C1: on the DDL with the lines [`id` int], [`name` varchar(255)],
    [`amount` decimal(10,2)] and [PRIMARY KEY (`id`)] the parser returns the
    three columns in that order and the key [id]; the Hive text lists
    [id INT] marked as primary key, [name STRING], [amount DECIMAL(10,2)],
    and the schema text lists [id], [name], [amount] with [int32],
    [string], [decimal128(10, 2)]. *)
Theorem end_to_end_scenario tbl strict verbose :
  let columns := [("id", "INT", pa.int32);
                  ("name", "STRING", pa.string);
                  ("amount", "DECIMAL(10,2)", pa.decimal128_ 10 2)] in
  extract_columns orders_ddl strict verbose = ([], Return (columns, ["id"]))
  /\ generate_hive_ddl tbl columns ["id"]
     = "CREATE TABLE " ++ tbl ++ " (" ++ nl ++
       "  `id` INT -- PRIMARY KEY," ++ nl ++
       "  `name` STRING," ++ nl ++
       "  `amount` DECIMAL(10,2)" ++ nl ++
       ")" ++ nl ++
       "STORED AS PARQUET;" ++ nl
  /\ generate_parquet_schema tbl columns
     = tbl ++ "_schema = pa.schema([" ++ nl ++
       "    (" ++ dquote ++ "id" ++ dquote ++ ", pa.int32)," ++ nl ++
       "    (" ++ dquote ++ "name" ++ dquote ++ ", pa.string)," ++ nl ++
       "    (" ++ dquote ++ "amount" ++ dquote ++ ", pa.decimal128(10, 2))," ++ nl ++
       "])" ++ nl.
Proof.
  cbv zeta. split; [| split].
  - destruct strict, verbose; vm_compute; reflexivity.
  - unfold generate_hive_ddl. cbn. now rewrite !append_assoc.
  - unfold generate_parquet_schema. cbn. now rewrite !append_assoc.
Qed.

(** C5: in strict mode, at a column line whose type no pattern matches,
    the resolver prints the error and exits with status 1; the parser stops
    there, whatever lines follow; the per-table step ends with the same
    exit and has appended nothing to any file. *)
Theorem strict_mode_aborts_at_unmapped_type
        args tbl mysql_ddl before raw after part0 mysql_type more evs acc :
  args_strict args = true ->
  lines_of mysql_ddl = (before ++ raw :: after)%list ->
  extract_lines true (args_verbose args) ([], []) before = (evs, Return acc) ->
  is_column_line (clean raw) = true ->
  Str.split (clean raw) = part0 :: mysql_type :: more ->
  is_unmapped mysql_type = true ->
  let colname := Str.strip_chr backtick part0 in
  convert_mysql_type colname mysql_type true (args_verbose args)
  = ([strict_abort colname mysql_type], Raise (SystemExit 1))
  /\ extract_columns mysql_ddl true (args_verbose args)
     = ((evs ++ [strict_abort colname mysql_type])%list, Raise (SystemExit 1))
  /\ process_table args tbl mysql_ddl
     = ((evs ++ [strict_abort colname mysql_type])%list, Raise (SystemExit 1))
  /\ Forall (fun e => is_append e = false)
            (events (process_table args tbl mysql_ddl)).
Proof.
  intros Hstrict Hl Hb Hc Hs Hun colname.
  pose proof (convert_unmapped_strict colname mysql_type (args_verbose args) Hun)
    as Hconv.
  assert (Hx : extract_columns mysql_ddl true (args_verbose args)
               = ((evs ++ [strict_abort colname mysql_type])%list,
                  Raise (SystemExit 1))).
  { apply (extract_columns_stops _ _ _ before raw after evs acc); trivial.
    destruct acc as [cols pks].
    rewrite (extract_line_column _ _ _ _ _ _ _ _ Hc Hs).
    fold colname. now rewrite Hconv. }
  assert (Hp : process_table args tbl mysql_ddl
               = ((evs ++ [strict_abort colname mysql_type])%list,
                  Raise (SystemExit 1))).
  { apply process_table_raises. now rewrite Hstrict. }
  repeat split; trivial.
  rewrite Hp. simpl. apply Forall_app. split.
  - pose proof (extract_lines_prints_only true (args_verbose args) before ([], []))
      as P.
    unfold prints_only in P. now rewrite Hb in P.
  - now repeat constructor.
Qed.

Lemma strict_mode_aborts_at_unmapped_type_witness :
  let args := {| args_hive := Some "hive.sql"; args_parquet := Some "schema.py";
                 args_verbose := false; args_strict := true |} in
  let mysql_ddl := "CREATE TABLE `t` (" ++ nl ++
                   "  `a` int NOT NULL," ++ nl ++
                   "  `b` bit(1) DEFAULT NULL," ++ nl ++
                   "  `c` int" ++ nl ++
                   ")" in
  convert_mysql_type "b" "bit(1)" true false
  = ([strict_abort "b" "bit(1)"], Raise (SystemExit 1))
  /\ extract_columns mysql_ddl true false
     = ([strict_abort "b" "bit(1)"], Raise (SystemExit 1))
  /\ process_table args "t" mysql_ddl
     = ([strict_abort "b" "bit(1)"], Raise (SystemExit 1))
  /\ Forall (fun e => is_append e = false)
            (events (process_table args "t" mysql_ddl)).
Proof.
  exact (strict_mode_aborts_at_unmapped_type
           {| args_hive := Some "hive.sql"; args_parquet := Some "schema.py";
              args_verbose := false; args_strict := true |}
           "t"
           ("CREATE TABLE `t` (" ++ nl ++
            "  `a` int NOT NULL," ++ nl ++
            "  `b` bit(1) DEFAULT NULL," ++ nl ++
            "  `c` int" ++ nl ++
            ")")
           ["CREATE TABLE `t` ("; "  `a` int NOT NULL,"]
           "  `b` bit(1) DEFAULT NULL,"
           ["  `c` int"; ")"]
           "`b`" "bit(1)" ["DEFAULT"; "NULL"]
           [] ([("a", "INT", pa.int32)], [])
           eq_refl eq_refl eq_refl eq_refl eq_refl eq_refl).
Defined.

(** C8: let the only key line of a well-formed DDL text be a head without
    backticks followed by N quoted identifiers, each non-empty and each
    followed by text without backticks.  Then the parser returns, and the
    primary keys it returns are those N identifiers, each once and in the
    order of the line, whatever the column lines declare; they are distinct
    when the identifiers of the line are; with N = 0 there are none. *)
Theorem primary_keys_are_the_quoted_identifiers
        mysql_ddl strict verbose before raw after head items :
  well_formed strict mysql_ddl = true ->
  lines_of mysql_ddl = (before ++ raw :: after)%list ->
  forallb (fun l => negb (is_primary_key_line (clean l))) (before ++ after)
  = true ->
  is_primary_key_line (clean raw) = true ->
  clean raw = head ++ quoted_items items ->
  Str.all not_backtick head = true ->
  forallb item_ok items = true ->
  exists evs columns pks,
    extract_columns mysql_ddl strict verbose = (evs, Return (columns, pks))
    /\ pks = List.map fst items
    /\ List.length pks = List.length items
    /\ (NoDup (List.map fst items) -> NoDup pks)
    /\ (items = [] -> pks = []).
Proof.
  intros Hwf Hl Hno Hk Hraw Hhead Hitems.
  destruct (extract_lines_returns strict verbose _ Hwf [] [])
    as (evs & columns & Hrun & _).
  assert (Hpk : pk_entries (lines_of mysql_ddl) = List.map fst items).
  { rewrite Hl, pk_entries_app.
    rewrite forallb_app in Hno. apply andb_prop in Hno as [Hb Ha].
    rewrite (pk_entries_none _ Hb).
    change (pk_entries (raw :: after))
      with (pk_entry raw ++ pk_entries after)%list.
    rewrite (pk_entries_none _ Ha), app_nil_r. simpl.
    unfold pk_entry. rewrite Hk, Hraw.
    now apply findall_quoted_items. }
  exists evs, columns, (List.map fst items).
  split; [| split; [| split; [| split]]]; trivial.
  - unfold extract_columns. fold (lines_of mysql_ddl).
    now rewrite Hrun, Hpk.
  - apply length_map.
  - now intros ->.
Qed.

Lemma primary_keys_are_the_quoted_identifiers_witness :
  let mysql_ddl := "CREATE TABLE `order_items` (" ++ nl ++
                   "  `order_id` int NOT NULL," ++ nl ++
                   "  `sku` varchar(40) NOT NULL," ++ nl ++
                   "  `qty` int DEFAULT NULL," ++ nl ++
                   "  PRIMARY KEY (`order_id`,`sku`)," ++ nl ++
                   "  KEY `by_sku` (`sku`)" ++ nl ++
                   ") ENGINE=InnoDB" in
  exists evs columns pks,
    extract_columns mysql_ddl false false = (evs, Return (columns, pks))
    /\ pks = ["order_id"; "sku"]
    /\ List.length pks = 2
    /\ (NoDup ["order_id"; "sku"] -> NoDup pks)
    /\ ([("order_id", ","); ("sku", ")")] = [] -> pks = []).
Proof.
  exact (primary_keys_are_the_quoted_identifiers
           ("CREATE TABLE `order_items` (" ++ nl ++
            "  `order_id` int NOT NULL," ++ nl ++
            "  `sku` varchar(40) NOT NULL," ++ nl ++
            "  `qty` int DEFAULT NULL," ++ nl ++
            "  PRIMARY KEY (`order_id`,`sku`)," ++ nl ++
            "  KEY `by_sku` (`sku`)" ++ nl ++
            ") ENGINE=InnoDB")
           false false
           ["CREATE TABLE `order_items` ("; "  `order_id` int NOT NULL,";
            "  `sku` varchar(40) NOT NULL,"; "  `qty` int DEFAULT NULL,"]
           "  PRIMARY KEY (`order_id`,`sku`),"
           ["  KEY `by_sku` (`sku`)"; ") ENGINE=InnoDB"]
           "PRIMARY KEY ("
           [("order_id", ","); ("sku", ")")]
           eq_refl eq_refl eq_refl eq_refl eq_refl eq_refl eq_refl).
Defined.

(** C9: on a DDL text without any column or key declaration the parser
    returns the empty column list and the empty key list and prints
    nothing; at the empty column list the two generators return the
    statement and the schema block without any column. *)
Theorem empty_table_scenario mysql_ddl strict verbose tbl :
  forallb is_ignored (lines_of mysql_ddl) = true ->
  extract_columns mysql_ddl strict verbose = ([], Return ([], []))
  /\ generate_hive_ddl tbl [] []
     = "CREATE TABLE " ++ tbl ++ " (" ++ nl ++ nl ++ ")" ++ nl ++
       "STORED AS PARQUET;" ++ nl
  /\ generate_parquet_schema tbl []
     = tbl ++ "_schema = pa.schema([" ++ nl ++ "])" ++ nl.
Proof.
  intros H. split; [| split].
  - exact (extract_lines_all_ignored strict verbose _ _ H).
  - unfold generate_hive_ddl. cbn. now rewrite !append_assoc.
  - unfold generate_parquet_schema. cbn. now rewrite !append_assoc.
Qed.

Lemma empty_table_scenario_witness :
  extract_columns ("CREATE TABLE `t` (" ++ nl ++ ") ENGINE=InnoDB") true true
  = ([], Return ([], []))
  /\ generate_hive_ddl "t" [] []
     = "CREATE TABLE t (" ++ nl ++ nl ++ ")" ++ nl ++
       "STORED AS PARQUET;" ++ nl
  /\ generate_parquet_schema "t" []
     = "t_schema = pa.schema([" ++ nl ++ "])" ++ nl.
Proof.
  exact (empty_table_scenario
           ("CREATE TABLE `t` (" ++ nl ++ ") ENGINE=InnoDB") true true "t"
           eq_refl).
Defined.

(** C10: a line that, once cleaned, begins with a backtick and has fewer
    than two whitespace-separated parts is not skipped: the parser raises
    [IndexError] there and returns no columns at all. *)
Theorem column_line_without_type_raises
        mysql_ddl strict verbose before raw after evs acc :
  lines_of mysql_ddl = (before ++ raw :: after)%list ->
  extract_lines strict verbose ([], []) before = (evs, Return acc) ->
  is_column_line (clean raw) = true ->
  (List.length (Str.split (clean raw)) < 2)%nat ->
  extract_columns mysql_ddl strict verbose = (evs, Raise IndexError).
Proof.
  intros Hl Hb Hc Hs.
  rewrite (extract_columns_stops strict verbose _ before raw after
             evs acc [] IndexError); trivial.
  - now rewrite app_nil_r.
  - now apply extract_line_short.
Qed.

Lemma column_line_without_type_raises_witness :
  extract_columns ("CREATE TABLE `t` (" ++ nl ++
                   "  `a` int NOT NULL," ++ nl ++
                   "  `id`," ++ nl ++
                   "  `b` int" ++ nl ++
                   ")") false false
  = ([], Raise IndexError).
Proof.
  apply (column_line_without_type_raises
           ("CREATE TABLE `t` (" ++ nl ++
            "  `a` int NOT NULL," ++ nl ++
            "  `id`," ++ nl ++
            "  `b` int" ++ nl ++
            ")") false false
           ["CREATE TABLE `t` ("; "  `a` int NOT NULL,"]
           "  `id`,"
           ["  `b` int"; ")"]
           [] ([("a", "INT", pa.int32)], [])).
  - reflexivity.
  - reflexivity.
  - reflexivity.
  - vm_compute. lia.
Defined.

(* ====================================================================== *)
(** ** When the parser returns and how it fails *)
(* ====================================================================== *)

Section Failures.

Variables strict verbose : bool.

Lemma first_match_in rules t mp m :
  first_match rules t = Some (mp, m) ->
  exists pattern, In (pattern, mp) rules /\ Re.match_ pattern t = Some m.
Proof.
  induction rules as [| [pattern mp'] rules IH]; simpl; [discriminate |].
  destruct (Re.match_ pattern t) as [m' |] eqn:E.
  - intros [= <- <-]. eauto.
  - intros H. destruct (IH H) as (q & Hin & Hq). eauto.
Qed.

Lemma resolves_false_raises colname mysql_type :
  resolves strict mysql_type = false ->
  exists evs e,
    convert_mysql_type colname mysql_type strict verbose = (evs, Raise e).
Proof.
  unfold resolves, convert_mysql_type, apply_mapping.
  destruct (first_match MYSQL_TYPE_MAP (normalize mysql_type)) as [[mp m] |].
  - destruct (target mp) as [h p | h pq]; [discriminate |].
    destruct (Re.groups m) as [| g1 [| g2 [| g3 gs]]];
      try (intros _; do 2 eexists; reflexivity).
    destruct (pq g1 g2) as [p | e]; [discriminate | intros _].
    do 2 eexists; reflexivity.
  - destruct strict; [intros _ | discriminate]. do 2 eexists; reflexivity.
Qed.

Lemma extract_line_bad acc raw :
  column_line_ok strict raw = false ->
  exists evs e, extract_line strict verbose acc raw = (evs, Raise e).
Proof.
  unfold column_line_ok. destruct (is_column_line (clean raw)) eqn:Hc;
    [| discriminate].
  intros H. apply andb_false_iff in H as [H | H].
  - apply Nat.leb_gt in H.
    rewrite (extract_line_short strict verbose acc raw Hc H).
    do 2 eexists; reflexivity.
  - unfold declared_type in H. destruct acc as [cols pks].
    destruct (Str.split (clean raw)) as [| part0 [| coltype more]] eqn:Hs.
    + exists [], IndexError. apply extract_line_short; trivial.
      rewrite Hs. simpl. lia.
    + exists [], IndexError. apply extract_line_short; trivial.
      rewrite Hs. simpl. lia.
    + simpl in H.
      destruct (resolves_false_raises (Str.strip_chr backtick part0) _ H)
        as (evs & e & Hconv).
      rewrite (extract_line_column strict verbose _ _ _ _ _ _ Hc Hs), Hconv.
      do 2 eexists; reflexivity.
Qed.

Lemma extract_line_good acc raw :
  column_line_ok strict raw = true ->
  exists evs acc', extract_line strict verbose acc raw = (evs, Return acc').
Proof.
  intros Hok. destruct acc as [cols pks].
  destruct (extract_lines_returns strict verbose [raw]) with (cols := cols)
    (pks := pks) as (evs & cols' & Hrun & _).
  { simpl. now rewrite Hok. }
  unfold extract_lines in Hrun. rewrite for_each_cons in Hrun.
  simpl for_each in Hrun.
  change (fun acc' : list column * list string => ret acc')
    with (@ret (list column * list string)) in Hrun.
  rewrite bind_ret_r in Hrun. rewrite Hrun. do 2 eexists; reflexivity.
Qed.

Lemma extract_lines_fails raws :
  forallb (column_line_ok strict) raws = false ->
  forall acc,
  exists evs e, extract_lines strict verbose acc raws = (evs, Raise e).
Proof.
  induction raws as [| raw raws IH]; simpl; [discriminate |].
  intros H acc. unfold extract_lines. rewrite for_each_cons.
  destruct (column_line_ok strict raw) eqn:Hok.
  - destruct (extract_line_good acc raw Hok) as (evs & acc' & ->).
    destruct (IH H acc') as (evs' & e & Hrun).
    unfold extract_lines in Hrun. rewrite bind_return, Hrun.
    do 2 eexists; reflexivity.
  - destruct (extract_line_bad acc raw Hok) as (evs & e & ->).
    do 2 eexists; reflexivity.
Qed.

End Failures.

(** X1: the parser returns on the well-formed texts and on no other: its
    result is a value exactly when every column-declaration line has two
    parts and a type that resolves. *)
Theorem parser_returns_iff_well_formed mysql_ddl strict verbose :
  is_return (result (extract_columns mysql_ddl strict verbose))
  = well_formed strict mysql_ddl.
Proof.
  unfold well_formed, extract_columns. fold (lines_of mysql_ddl).
  destruct (forallb (column_line_ok strict) (lines_of mysql_ddl)) eqn:Hwf.
  - destruct (extract_lines_returns strict verbose _ Hwf [] [])
      as (evs & cols & -> & _). reflexivity.
  - destruct (extract_lines_fails strict verbose _ Hwf ([], []))
      as (evs & e & ->). reflexivity.
Qed.

(* ====================================================================== *)
(** ** What a match tells about the text *)
(* ====================================================================== *)

Section MatchInversion.

Lemma match_lit_inv c p (s : string) m :
  Re.match_ (Re.Lit c :: p) s = Some m ->
  exists s', s = String c s' /\ Re.match_ p s' = Some m.
Proof.
  destruct s as [| x s']; simpl; [discriminate |].
  destruct (Ascii.eqb_spec x c) as [-> | _]; [eauto | discriminate].
Qed.

Lemma match_plus_inv capture cls p (s : string) m :
  Re.match_ (Re.Plus capture cls :: p) s = Some m ->
  exists k m',
    (1 <= k <= Str.run_length cls s)%nat
    /\ Re.match_ p (Str.drop k s) = Some m'
    /\ Re.groups m = ((if capture then [Str.take k s] else []) ++ Re.groups m')%list
    /\ Re.rest m = Re.rest m'.
Proof.
  simpl. generalize (Str.run_length cls s) as n.
  induction n as [| n IH]; [discriminate |].
  destruct (Re.match_ p (Str.drop (S n) s)) as [m' |] eqn:E.
  - intros [= <-]. exists (S n), m'. repeat split; trivial; lia.
  - intros H. destruct (IH H) as (k & m' & Hk & Hm & Hg & Hr).
    exists k, m'. repeat split; trivial; lia.
Qed.

Lemma take_in_run cls k (s : string) :
  (k <= Str.run_length cls s)%nat -> Str.all cls (Str.take k s) = true.
Proof.
  revert s. induction k as [| k IH]; intros s; [now destruct s |].
  destruct s as [| x s]; simpl; [lia |].
  destruct (cls x); simpl; [| lia]. intros H. apply IH. lia.
Qed.

Lemma take_in_run_nonempty cls k (s : string) :
  (1 <= k <= Str.run_length cls s)%nat -> Str.take k s <> "".
Proof.
  destruct k as [| k]; [lia |]. destruct s as [| x s]; simpl; [lia |].
  discriminate.
Qed.

Lemma uint_of_digit c d :
  Str.isdigit c = true ->
  exists d', NilEmpty.uint_of_string (String c EmptyString) = Some d'
             /\ uint_of_char c (Some d) <> None.
Proof.
  destruct c as [[] [] [] [] [] [] [] []]; try discriminate; intros _;
    (eexists; split; [reflexivity | discriminate]).
Qed.

Lemma uint_of_digits (g : string) :
  Str.all Str.isdigit g = true ->
  exists d, NilEmpty.uint_of_string g = Some d.
Proof.
  induction g as [| c g IH]; simpl; [eauto |].
  intros H. apply andb_prop in H as [Hc Hg].
  destruct (IH Hg) as (d & ->).
  destruct (uint_of_digit c d Hc) as (_ & _ & Hne).
  destruct (uint_of_char c (Some d)) as [d' |]; [eauto | congruence].
Qed.

Lemma int_none_long (g : string) :
  Str.all Str.isdigit g = true -> g <> "" -> pa.int g = None ->
  (pa.MAX_STR_DIGITS < String.length g)%nat.
Proof.
  intros Hg Hne. unfold pa.int, NilZero.uint_of_string.
  destruct (Nat.ltb_spec pa.MAX_STR_DIGITS (String.length g)) as [L | _];
    [trivial |].
  destruct g as [| c g]; [congruence |].
  destruct (uint_of_digits _ Hg) as (d & ->). discriminate.
Qed.

(** What the pattern of the decimal entry captures: two runs of digits. *)
Lemma decimal_pattern_inv (t : string) m :
  Re.match_ (Re.lits "decimal(" ++ [digits_group] ++ Re.lits ","
                                ++ [digits_group] ++ Re.lits ")")%list t
  = Some m ->
  exists g1 g2,
    Re.groups m = [g1; g2]
    /\ (Str.all Str.isdigit g1 = true /\ g1 <> "")
    /\ (Str.all Str.isdigit g2 = true /\ g2 <> "").
Proof.
  intros H.
  change (Re.match_ (Re.lits "decimal("
                       ++ digits_group :: Re.Lit ","
                       :: digits_group :: Re.Lit ")" :: [])%list t = Some m)
    in H.
  simpl Re.lits in H. simpl app in H.
  do 7 (apply match_lit_inv in H as (? & -> & H)).
  apply match_lit_inv in H as (s1 & -> & H).
  unfold digits_group in H.
  apply match_plus_inv in H as (k1 & m1 & Hk1 & H & Hg1 & _).
  apply match_lit_inv in H as (s2 & _ & H).
  apply match_plus_inv in H as (k2 & m2 & Hk2 & H & Hg2 & _).
  apply match_lit_inv in H as (s3 & _ & H).
  injection H as <-. simpl in Hg2. rewrite Hg2 in Hg1. simpl in Hg1.
  exists (Str.take k1 s1), (Str.take k2 s2). split; [exact Hg1 |].
  split; (split; [apply take_in_run; lia
                 | now apply (take_in_run_nonempty Str.isdigit)]).
Qed.

End MatchInversion.

(* ====================================================================== *)
(** ** The entries of the table *)
(* ====================================================================== *)

Section Entries.

Lemma decimal128_returns p s t :
  pa.decimal128 p s = Return t ->
  t = pa.decimal128_ p s /\ (1 <= p <= 38)%N.
Proof.
  unfold pa.decimal128.
  destruct ((pa.INT_MAX <? p) || (pa.INT_MAX <? s))%N; [discriminate |].
  destruct (N.ltb_spec p 1); [discriminate |].
  destruct (N.ltb_spec 38 p); [discriminate |].
  simpl. intros [= <-]. split; [reflexivity | lia].
Qed.

Lemma decimal128_raises p s e :
  pa.decimal128 p s = Raise e ->
  e = ValueError "precision should be between 1 and 38" \/ e = OverflowError.
Proof.
  unfold pa.decimal128.
  destruct ((pa.INT_MAX <? p) || (pa.INT_MAX <? s))%N;
    [intros [= <-]; now right |].
  destruct ((p <? 1) || (38 <? p))%N; [intros [= <-]; now left | discriminate].
Qed.

(** Every entry holds a pair of plain types of the same kind, but the
    decimal entry, which builds its two types from the groups. *)
Lemma table_entries pattern mp :
  In (pattern, mp) MYSQL_TYPE_MAP ->
  (exists h p, target mp = Plain h p /\ paired h p)
  \/ (pattern = (Re.lits "decimal(" ++ [digits_group] ++ Re.lits ","
                                    ++ [digits_group] ++ Re.lits ")")%list
      /\ target mp
         = Callable
             (fun p s => ("DECIMAL(" ++ p ++ "," ++ s ++ ")")%string)
             (fun p s =>
                match pa.int p, pa.int s with
                | Some p', Some s' => pa.decimal128 p' s'
                | None, _ => Raise (pa.int_error p)
                | Some _, None => Raise (pa.int_error s)
                end)).
Proof.
  unfold MYSQL_TYPE_MAP. intros H.
  repeat (destruct H as [H | H];
          [injection H as <- <-;
           first [ left; do 2 eexists; split; [reflexivity | simpl; auto]
                 | right; split; reflexivity ] |]).
  destruct H.
Qed.

Variables strict verbose : bool.

(** The value that the resolver returns is a pair of the same kind. *)
Lemma convert_returns_paired colname mysql_type evs h p :
  convert_mysql_type colname mysql_type strict verbose = (evs, Return (h, p)) ->
  paired h p.
Proof.
  unfold convert_mysql_type.
  destruct (first_match MYSQL_TYPE_MAP (normalize mysql_type)) as [[mp m] |] eqn:F.
  - destruct (first_match_in _ _ _ _ F) as (pattern & Hin & Hm).
    unfold apply_mapping.
    destruct (table_entries _ _ Hin) as [(h0 & p0 & -> & Hp) | [-> ->]].
    + rewrite bind_ret_l.
      destruct (negb (Str.is_empty (note mp)) && verbose); simpl;
        intros [= _ <- <-]; exact Hp.
    + destruct (decimal_pattern_inv _ _ Hm) as (g1 & g2 & -> & _ & _).
      destruct (pa.int g1) as [pr |] eqn:Hg1; [| discriminate].
      destruct (pa.int g2) as [sc |] eqn:Hg2; [| discriminate].
      destruct (pa.decimal128 pr sc) as [t |] eqn:D; simpl.
      * apply decimal128_returns in D as [-> Hr].
        destruct (negb (Str.is_empty (note mp)) && verbose); simpl;
          intros [= _ <- <-]; simpl; eauto 10.
      * discriminate.
  - destruct strict; simpl; [discriminate |]. now intros [= _ <- <-].
Qed.

(** The exceptions of the resolver. *)
Lemma convert_raises_kinds colname mysql_type evs e :
  convert_mysql_type colname mysql_type strict verbose = (evs, Raise e) ->
  (e = SystemExit 1 /\ strict = true)
  \/ (exists g, (pa.MAX_STR_DIGITS < String.length g)%nat
                /\ e = pa.int_error g)
  \/ e = ValueError "precision should be between 1 and 38"
  \/ e = OverflowError.
Proof.
  unfold convert_mysql_type.
  destruct (first_match MYSQL_TYPE_MAP (normalize mysql_type)) as [[mp m] |] eqn:F.
  - destruct (first_match_in _ _ _ _ F) as (pattern & Hin & Hm).
    unfold apply_mapping.
    destruct (table_entries _ _ Hin) as [(h0 & p0 & -> & Hp) | [-> ->]].
    + rewrite bind_ret_l.
      destruct (negb (Str.is_empty (note mp)) && verbose); discriminate.
    + destruct (decimal_pattern_inv _ _ Hm)
        as (g1 & g2 & -> & [D1 N1] & [D2 N2]).
      destruct (pa.int g1) as [pr |] eqn:Hg1.
      * destruct (pa.int g2) as [sc |] eqn:Hg2.
        -- destruct (pa.decimal128 pr sc) as [t | e'] eqn:D; simpl.
           ++ destruct (negb (Str.is_empty (note mp)) && verbose);
                discriminate.
           ++ intros [= _ <-]. right. right.
              now apply decimal128_raises in D.
        -- simpl. intros [= _ <-]. right. left. exists g2.
           split; [exact (int_none_long _ D2 N2 Hg2) | reflexivity].
      * simpl. intros [= _ <-]. right. left. exists g1.
        split; [exact (int_none_long _ D1 N1 Hg1) | reflexivity].
  - destruct strict; simpl; [| discriminate]. intros [= _ <-]. now left.
Qed.

Lemma extract_line_raises_kinds acc raw evs e :
  extract_line strict verbose acc raw = (evs, Raise e) ->
  parser_failure strict e.
Proof.
  destruct acc as [cols pks].
  destruct (is_column_line (clean raw)) eqn:Hc.
  - destruct (Str.split (clean raw)) as [| part0 [| coltype more]] eqn:Hs.
    + rewrite extract_line_short; trivial; [| rewrite Hs; simpl; lia].
      intros [= _ <-]. now left.
    + rewrite extract_line_short; trivial; [| rewrite Hs; simpl; lia].
      intros [= _ <-]. now left.
    + rewrite (extract_line_column strict verbose _ _ _ _ _ _ Hc Hs).
      destruct (convert_mysql_type (Str.strip_chr backtick part0) coltype
                                   strict verbose) as [evs1 [tys | e1]] eqn:Hconv;
        simpl; [discriminate |].
      intros [= _ <-]. right. exact (convert_raises_kinds _ _ _ _ Hconv).
  - rewrite (extract_line_other strict verbose _ _ _ Hc). discriminate.
Qed.

Lemma extract_lines_raises_kinds raws acc evs e :
  extract_lines strict verbose acc raws = (evs, Raise e) ->
  parser_failure strict e.
Proof.
  revert acc evs. induction raws as [| raw raws IH]; intros acc evs;
    [discriminate |].
  unfold extract_lines in *. rewrite for_each_cons.
  destruct (extract_line strict verbose acc raw) as [evs1 [acc' | e1]] eqn:Hl.
  - rewrite bind_return.
    destruct (for_each (extract_line strict verbose) acc' raws)
      as [evs2 r] eqn:Hr.
    simpl. intros [= _ ->]. exact (IH _ _ Hr).
  - simpl. intros [= _ <-]. exact (extract_line_raises_kinds _ _ _ _ Hl).
Qed.

End Entries.

(** X2: the parser stops in five ways only: [IndexError] at a column line
    without a type, [sys.exit(1)] in strict mode, the [ValueError] of
    [int] at a precision or a scale of more than 4300 digits, and the
    [ValueError] and the [OverflowError] of [pa.decimal128] at a precision
    or a scale that it refuses.  Without strict mode it never exits. *)
Theorem parser_failure_kinds mysql_ddl strict verbose evs e :
  extract_columns mysql_ddl strict verbose = (evs, Raise e) ->
  parser_failure strict e
  /\ (strict = false -> forall code, e <> SystemExit code).
Proof.
  intros H. pose proof (extract_lines_raises_kinds _ _ _ _ _ _ H) as K.
  split; [exact K |].
  intros -> code ->.
  destruct K as [K | [[_ K] | [(g & _ & K) | [K | K]]]]; try discriminate.
  unfold pa.int_error in K.
  destruct (pa.MAX_STR_DIGITS <? String.length g)%nat; discriminate.
Qed.

Lemma parser_failure_kinds_witness :
  parser_failure false (ValueError "precision should be between 1 and 38")
  /\ (false = false ->
      forall code,
        ValueError "precision should be between 1 and 38" <> SystemExit code).
Proof.
  exact (parser_failure_kinds
           ("CREATE TABLE `t` (" ++ nl ++ "  `total` decimal(65,30)" ++ nl ++ ")")
           false false [] _ eq_refl).
Defined.

(** A precision of 4301 digits stops the parser at [int]; one of 4300
    digits is read and stops it at [pa.decimal128]. *)
Lemma precision_at_the_digit_limit :
  result (extract_columns
            ("CREATE TABLE `t` (" ++ nl
             ++ "  `total` decimal(" ++ nines 4301 ++ ",2)" ++ nl ++ ")")
            false false)
  = Raise (ValueError
             ("Exceeds the limit (4300 digits) for integer string conversion: "
              ++ "value has 4301 digits; use sys.set_int_max_str_digits() "
              ++ "to increase the limit"))
  /\ result (extract_columns
               ("CREATE TABLE `t` (" ++ nl
                ++ "  `total` decimal(" ++ nines 4300 ++ ",2)" ++ nl ++ ")")
               false false)
     = Raise OverflowError.
Proof. split; vm_compute; reflexivity. Qed.

(** X3: whatever the text of the type, the two target types that the
    resolver returns are of the same kind: [BOOLEAN] with [bool], [INT]
    with [int32], [STRING] with [string] and so on, and [DECIMAL(g1,g2)]
    with the 128-bit decimal whose precision and scale are the numbers
    that [g1] and [g2] write, the precision being from 1 to 38. *)
Theorem resolver_returns_paired_types
        colname mysql_type strict verbose evs h p :
  convert_mysql_type colname mysql_type strict verbose = (evs, Return (h, p)) ->
  paired h p.
Proof. apply convert_returns_paired. Qed.

Lemma resolver_returns_paired_types_witness :
  paired "DECIMAL(012,4)" (pa.decimal128_ 12 4).
Proof.
  exact (resolver_returns_paired_types
           "price" "Decimal(012,4) unsigned" true false [] _ _ eq_refl).
Defined.

(* ====================================================================== *)
(** ** The two flags *)
(* ====================================================================== *)

Section Flags.

Lemma for_each_ext {S A} (body1 body2 : S -> A -> M S) (l : list A) :
  (forall a, In a l -> forall acc, body1 acc a = body2 acc a) ->
  forall acc, for_each body1 acc l = for_each body2 acc l.
Proof.
  induction l as [| a l IH]; intros H acc; trivial.
  rewrite !for_each_cons, (H a (or_introl eq_refl)).
  apply bind_ext. intros acc'. apply IH. intros b Hb. apply H. now right.
Qed.

Lemma resolves_strict_mapped mysql_type :
  resolves true mysql_type = true ->
  first_match MYSQL_TYPE_MAP (normalize mysql_type) <> None.
Proof.
  unfold resolves.
  destruct (first_match MYSQL_TYPE_MAP (normalize mysql_type));
    [discriminate | discriminate].
Qed.

Lemma convert_strict_irrelevant colname mysql_type verbose :
  first_match MYSQL_TYPE_MAP (normalize mysql_type) <> None ->
  convert_mysql_type colname mysql_type true verbose
  = convert_mysql_type colname mysql_type false verbose.
Proof.
  unfold convert_mysql_type.
  destruct (first_match MYSQL_TYPE_MAP (normalize mysql_type)) as [[mp m] |];
    [reflexivity | congruence].
Qed.

Lemma extract_line_strict_irrelevant verbose acc raw :
  column_line_ok true raw = true ->
  extract_line true verbose acc raw = extract_line false verbose acc raw.
Proof.
  unfold column_line_ok. destruct acc as [cols pks].
  destruct (is_column_line (clean raw)) eqn:Hc.
  - intros H. apply andb_prop in H as [Hlen Hres]. unfold declared_type in Hres.
    destruct (Str.split (clean raw)) as [| part0 [| coltype more]] eqn:Hs;
      try discriminate.
    simpl in Hres.
    rewrite !(extract_line_column _ verbose _ _ _ _ _ _ Hc Hs).
    now rewrite convert_strict_irrelevant by now apply resolves_strict_mapped.
  - intros _. now rewrite !extract_line_other.
Qed.

(** Without [info]. *)
Lemma quieter_same {A} (m : M A) :
  Forall (fun e => is_info e = false) (events m) -> quieter m m.
Proof.
  intros H. split; trivial.
  induction H as [| e evs He _ IH]; trivial.
  simpl. rewrite He. simpl. now f_equal.
Qed.

Lemma quieter_ret {A} (a : A) : quieter (ret a) (ret a).
Proof. now split. Qed.

Lemma quieter_bind {A B} (m1 m2 : M A) (f1 f2 : A -> M B) :
  quieter m1 m2 -> (forall a, quieter (f1 a) (f2 a)) ->
  quieter (bind m1 f1) (bind m2 f2).
Proof.
  destruct m1 as [evs1 r1], m2 as [evs2 r2]. unfold quieter. simpl.
  intros [-> ->] Hf. destruct r2 as [a | e]; simpl; [| now split].
  specialize (Hf a). destruct (f1 a) as [evs1' r1'], (f2 a) as [evs2' r2'].
  simpl in *. destruct Hf as [-> ->]. split; trivial.
  now rewrite filter_app.
Qed.

Lemma convert_quieter colname mysql_type strict :
  quieter (convert_mysql_type colname mysql_type strict false)
          (convert_mysql_type colname mysql_type strict true).
Proof.
  unfold convert_mysql_type.
  destruct (first_match MYSQL_TYPE_MAP (normalize mysql_type)) as [[mp m] |].
  - unfold apply_mapping. apply quieter_bind.
    + apply quieter_same.
      destruct (target mp) as [h p | h pq]; [constructor |].
      destruct (Re.groups m) as [| g1 [| g2 [| g3 gs]]]; try constructor.
      destruct (pq g1 g2); constructor.
    + intros [h p]. apply quieter_bind; [| intros; apply quieter_ret].
      rewrite andb_false_r, andb_true_r.
      destruct (negb (Str.is_empty (note mp))); now split.
  - apply quieter_same. destruct strict; repeat constructor.
Qed.

Lemma extract_line_quieter strict acc raw :
  quieter (extract_line strict false acc raw) (extract_line strict true acc raw).
Proof.
  destruct acc as [cols pks].
  destruct (is_column_line (clean raw)) eqn:Hc.
  - destruct (Str.split (clean raw)) as [| part0 [| coltype more]] eqn:Hs.
    + rewrite !extract_line_short; trivial; try (rewrite Hs; simpl; lia).
      now split.
    + rewrite !extract_line_short; trivial; try (rewrite Hs; simpl; lia).
      now split.
    + rewrite !(extract_line_column strict _ _ _ _ _ _ _ Hc Hs).
      apply quieter_bind; [apply convert_quieter | intros; apply quieter_ret].
  - rewrite !extract_line_other by assumption. apply quieter_ret.
Qed.

Lemma extract_lines_quieter strict raws acc :
  quieter (extract_lines strict false acc raws)
          (extract_lines strict true acc raws).
Proof.
  revert acc. induction raws as [| raw raws IH]; intros acc.
  - apply quieter_ret.
  - unfold extract_lines in *. rewrite !for_each_cons.
    apply quieter_bind; [apply extract_line_quieter | exact IH].
Qed.

End Flags.

(** X4: on a text that is well-formed for strict mode, strict mode changes
    nothing: the parser prints and returns the same with and without it. *)
Theorem strict_mode_is_idle_on_mapped_types mysql_ddl verbose :
  well_formed true mysql_ddl = true ->
  extract_columns mysql_ddl true verbose
  = extract_columns mysql_ddl false verbose.
Proof.
  intros Hwf. unfold extract_columns, extract_lines.
  apply for_each_ext. intros raw Hin acc.
  apply extract_line_strict_irrelevant.
  unfold well_formed, lines_of in Hwf.
  rewrite forallb_forall in Hwf. now apply Hwf.
Qed.

Lemma strict_mode_is_idle_on_mapped_types_witness :
  extract_columns orders_ddl true true = extract_columns orders_ddl false true.
Proof.
  exact (strict_mode_is_idle_on_mapped_types orders_ddl true eq_refl).
Defined.

(** X5: verbose changes what is printed and nothing else: the parser ends
    the same way, with the same columns and keys or the same exception,
    and what it prints without verbose is what it prints with verbose less
    the lines of [info]; warnings and errors stay. *)
Theorem verbose_only_adds_info_lines mysql_ddl strict :
  result (extract_columns mysql_ddl strict false)
  = result (extract_columns mysql_ddl strict true)
  /\ events (extract_columns mysql_ddl strict false)
     = filter (fun e => negb (is_info e))
              (events (extract_columns mysql_ddl strict true)).
Proof. apply extract_lines_quieter. Qed.

(* ====================================================================== *)
(** ** Warnings and texts put together *)
(* ====================================================================== *)

Section Composition.

Lemma convert_quiet colname mysql_type :
  resolves false mysql_type = true ->
  exists tys,
    convert_mysql_type colname mysql_type false false
    = ((if is_unmapped mysql_type
        then [fallback_warning colname mysql_type] else []),
       Return tys).
Proof.
  unfold resolves, convert_mysql_type.
  destruct (first_match MYSQL_TYPE_MAP (normalize mysql_type))
    as [[mp m] |] eqn:F.
  - destruct (is_unmapped mysql_type) eqn:U.
    { apply unmapped_first_match in U. congruence. }
    unfold apply_mapping. rewrite andb_false_r.
    destruct (target mp) as [h p | h pq]; [intros _; eexists; reflexivity |].
    destruct (Re.groups m) as [| g1 [| g2 [| g3 gs]]]; try discriminate.
    destruct (pq g1 g2) as [p | e]; [| discriminate].
    intros _. eexists; reflexivity.
  - assert (U : is_unmapped mysql_type = true) by now apply first_match_none.
    rewrite U. intros _. eexists; reflexivity.
Qed.

Lemma extract_lines_quiet raws :
  forallb (column_line_ok false) raws = true ->
  forall acc,
  exists acc',
    extract_lines false false acc raws
    = (fallback_warnings (column_lines raws), Return acc').
Proof.
  induction raws as [| raw raws IH]; intros Hok acc.
  - exists acc. reflexivity.
  - simpl in Hok. apply andb_prop in Hok as [Hraw Hraws].
    specialize (IH Hraws).
    unfold extract_lines in *. rewrite for_each_cons.
    unfold column_lines in *.
    change (filter is_column_line (List.map clean (raw :: raws)))
      with (if is_column_line (clean raw)
            then clean raw :: filter is_column_line (List.map clean raws)
            else filter is_column_line (List.map clean raws)).
    unfold column_line_ok in Hraw. destruct acc as [cols pks].
    destruct (is_column_line (clean raw)) eqn:Hc.
    + apply andb_prop in Hraw as [Hlen Hres]. unfold declared_type in Hres.
      destruct (Str.split (clean raw)) as [| part0 [| coltype more]] eqn:Hs;
        try discriminate.
      simpl in Hres.
      destruct (convert_quiet (Str.strip_chr backtick part0) _ Hres)
        as ([h p] & Hconv).
      rewrite (extract_line_column false false _ _ _ _ _ _ Hc Hs), Hconv.
      destruct (IH ((cols ++ [(Str.strip_chr backtick part0, h, p)])%list, pks))
        as (acc' & Hrun).
      exists acc'. simpl. rewrite Hrun. simpl. rewrite app_nil_r.
      unfold fallback_warnings at 2. simpl flat_map.
      unfold declared_name, declared_type. now rewrite Hs.
    + rewrite (extract_line_other false false _ _ _ Hc), bind_ret_l.
      apply IH.
Qed.

Lemma split_chr_nonempty c (s : string) : Str.split_chr c s <> [].
Proof.
  destruct s as [| x s]; simpl; [discriminate |].
  destruct (Ascii.eqb x c); [discriminate |].
  destruct (Str.split_chr c s); discriminate.
Qed.

Lemma split_chr_append c (a b : string) :
  Str.split_chr c (a ++ String c b)
  = (Str.split_chr c a ++ Str.split_chr c b)%list.
Proof.
  induction a as [| x a IH]; simpl.
  - now rewrite Ascii.eqb_refl.
  - destruct (Ascii.eqb x c); rewrite IH; trivial.
    pose proof (split_chr_nonempty c a) as Hne.
    destruct (Str.split_chr c a); [congruence | reflexivity].
Qed.

Lemma after_lists_after_lists c p c' p' m :
  after_lists c p (after_lists c' p' m)
  = after_lists (c ++ c')%list (p ++ p')%list m.
Proof.
  unfold after_lists. rewrite bind_assoc. apply bind_ext. intros [c'' p''].
  rewrite bind_ret_l. simpl. now rewrite !app_assoc.
Qed.

Variables strict verbose : bool.

Lemma extract_line_after cols pks raw :
  extract_line strict verbose (cols, pks) raw
  = after_lists cols pks (extract_line strict verbose ([], []) raw).
Proof.
  unfold after_lists.
  destruct (is_column_line (clean raw)) eqn:Hc.
  - destruct (Str.split (clean raw)) as [| part0 [| coltype more]] eqn:Hs.
    + rewrite !extract_line_short; trivial; rewrite Hs; simpl; lia.
    + rewrite !extract_line_short; trivial; rewrite Hs; simpl; lia.
    + rewrite !(extract_line_column strict verbose _ _ _ _ _ _ Hc Hs).
      rewrite bind_assoc. apply bind_ext. intros tys.
      rewrite bind_ret_l. simpl. now rewrite app_nil_r.
  - rewrite !(extract_line_other strict verbose _ _ _ Hc).
    unfold bind, ret. simpl. now rewrite app_nil_r.
Qed.

Lemma extract_lines_after raws cols pks :
  extract_lines strict verbose (cols, pks) raws
  = after_lists cols pks (extract_lines strict verbose ([], []) raws).
Proof.
  revert cols pks. induction raws as [| raw raws IH]; intros cols pks.
  - unfold after_lists, extract_lines. simpl. now rewrite !app_nil_r.
  - unfold extract_lines in *. rewrite !for_each_cons.
    rewrite extract_line_after. unfold after_lists at 1 2.
    rewrite !bind_assoc. apply bind_ext. intros [c1 p1].
    rewrite bind_ret_l. simpl fst. simpl snd.
    rewrite (IH (cols ++ c1)%list (pks ++ p1)%list), (IH c1 p1).
    symmetry. apply after_lists_after_lists.
Qed.

End Composition.

(** X6: on a text that is well-formed without strict mode, and with
    verbose off, the parser prints one warning for each column line whose
    type no pattern matches, in the order of the lines, and prints nothing
    else. *)
Theorem one_warning_per_unmapped_column mysql_ddl :
  well_formed false mysql_ddl = true ->
  events (extract_columns mysql_ddl false false)
  = fallback_warnings (column_lines (lines_of mysql_ddl)).
Proof.
  intros Hwf.
  destruct (extract_lines_quiet _ Hwf ([], [])) as (acc' & Hrun).
  unfold extract_columns. fold (lines_of mysql_ddl). now rewrite Hrun.
Qed.

Lemma one_warning_per_unmapped_column_witness :
  events (extract_columns
            ("CREATE TABLE `docs` (" ++ nl ++
             "  `id` bigint NOT NULL," ++ nl ++
             "  `body` longtext," ++ nl ++
             "  `flags` bit(8) DEFAULT NULL," ++ nl ++
             "  PRIMARY KEY (`id`)" ++ nl ++
             ")") false false)
  = [fallback_warning "body" "longtext"; fallback_warning "flags" "bit(8)"].
Proof.
  exact (one_warning_per_unmapped_column
           ("CREATE TABLE `docs` (" ++ nl ++
            "  `id` bigint NOT NULL," ++ nl ++
            "  `body` longtext," ++ nl ++
            "  `flags` bit(8) DEFAULT NULL," ++ nl ++
            "  PRIMARY KEY (`id`)" ++ nl ++
            ")") eq_refl).
Defined.

(** X7: the lines are read one after the other and independently: parsing
    two texts joined by a newline is parsing the first and then the second,
    the columns and keys of the second put after those of the first; when
    the first stops with an exception the second is not read. *)
Theorem parser_reads_joined_texts_in_turn (ddl1 ddl2 : string) strict verbose :
  extract_columns (ddl1 ++ nl ++ ddl2) strict verbose
  = bind (extract_columns ddl1 strict verbose)
         (fun r => after_lists (fst r) (snd r)
                               (extract_columns ddl2 strict verbose)).
Proof.
  unfold extract_columns.
  change (ddl1 ++ nl ++ ddl2) with (ddl1 ++ String (ascii_of_nat 10) ddl2).
  rewrite split_chr_append. unfold extract_lines at 1.
  rewrite for_each_app. apply bind_ext. intros [c p].
  apply extract_lines_after.
Qed.

(* ====================================================================== *)
(** ** The text of a line *)
(* ====================================================================== *)

Section LineText.

Lemma lstrip_by_cons_in cls c (s : string) :
  cls c = true -> Str.lstrip_by cls (String c s) = Str.lstrip_by cls s.
Proof. intros H. simpl. now rewrite H. Qed.

Lemma lstrip_by_cons_out cls c (s : string) :
  cls c = false -> Str.lstrip_by cls (String c s) = String c s.
Proof. intros H. simpl. now rewrite H. Qed.

Lemma lstrip_by_all cls (a b : string) :
  Str.all cls a = true -> Str.lstrip_by cls (a ++ b) = Str.lstrip_by cls b.
Proof.
  induction a as [| x a IH]; simpl; trivial.
  intros H. apply andb_prop in H as [-> Ha]. auto.
Qed.

Lemma rstrip_by_none cls (s : string) :
  Str.all (fun c => negb (cls c)) s = true -> Str.rstrip_by cls s = s.
Proof.
  induction s as [| x s IH]; simpl; trivial.
  intros H. apply andb_prop in H as [Hx Hs]. apply negb_true_iff in Hx.
  rewrite (IH Hs), Hx. now destruct s.
Qed.

Lemma rstrip_by_all cls (s t : string) :
  Str.all cls t = true -> Str.rstrip_by cls (s ++ t) = Str.rstrip_by cls s.
Proof.
  intros Ht. induction s as [| x s IH]; simpl.
  - induction t as [| y t IHt]; simpl; trivial.
    simpl in Ht. apply andb_prop in Ht as [Hy Ht].
    now rewrite (IHt Ht), Hy.
  - now rewrite IH.
Qed.

Lemma rstrip_by_append cls (s t : string) :
  Str.rstrip_by cls t <> "" ->
  Str.rstrip_by cls (s ++ t) = s ++ Str.rstrip_by cls t.
Proof.
  intros Ht. induction s as [| x s IH]; simpl; trivial.
  rewrite IH. destruct (s ++ Str.rstrip_by cls t) eqn:E; trivial.
  destruct s; simpl in E; [congruence | discriminate].
Qed.

(** [split()] reads a part up to the next whitespace. *)
Lemma split_ws_from_part cur (a s : string) :
  Str.all not_space a = true ->
  Str.split_ws_from cur (a ++ s) = Str.split_ws_from (cur ++ a) s.
Proof.
  revert cur. induction a as [| x a IH]; intros cur; simpl.
  - now rewrite append_nil_r.
  - intros H. apply andb_prop in H as [Hx Ha].
    unfold not_space in Hx. apply negb_true_iff in Hx. rewrite Hx.
    rewrite (IH _ Ha). now rewrite append_assoc.
Qed.

Lemma split_ws_from_gap (gap s : string) :
  Str.all Str.isspace gap = true ->
  Str.split_ws_from "" (gap ++ s) = Str.split_ws_from "" s.
Proof.
  induction gap as [| x gap IH]; simpl; trivial.
  intros H. apply andb_prop in H as [-> Hg]. auto.
Qed.

Lemma split_two_parts (part0 gap ty tail : string) :
  Str.all not_space part0 = true -> part0 <> "" ->
  Str.all Str.isspace gap = true -> gap <> "" ->
  Str.all not_space ty = true -> ty <> "" ->
  part_ends tail = true ->
  exists more, Str.split (part0 ++ gap ++ ty ++ tail) = part0 :: ty :: more.
Proof.
  intros Hp Np Hg Ng Ht Nt He. unfold Str.split.
  rewrite (split_ws_from_part _ _ _ Hp). simpl append.
  destruct gap as [| g gap]; [congruence |].
  simpl in Hg. apply andb_prop in Hg as [Hg0 Hg].
  simpl. rewrite Hg0.
  destruct part0 as [| x part0]; [congruence |]. simpl Str.is_empty.
  cbv iota. rewrite (split_ws_from_gap _ _ Hg).
  rewrite (split_ws_from_part _ _ _ Ht). simpl append.
  destruct ty as [| y ty]; [congruence |].
  destruct tail as [| c tail]; simpl.
  - eauto.
  - simpl in He. rewrite He. eauto.
Qed.

Lemma strip_chr_after_backtick (a : string) :
  Str.all not_backtick a = true ->
  Str.strip_chr backtick (String backtick a) = a.
Proof.
  intros Ha. unfold Str.strip_chr, Str.strip_by.
  assert (R : Str.rstrip_by (Ascii.eqb backtick) a = a).
  { apply rstrip_by_none. erewrite all_ext; [exact Ha |].
    intros c. unfold not_backtick. now rewrite Ascii.eqb_sym. }
  change (Str.rstrip_by (Ascii.eqb backtick) (String backtick a))
    with (match Str.rstrip_by (Ascii.eqb backtick) a with
          | EmptyString => if Ascii.eqb backtick backtick
                           then EmptyString else String backtick EmptyString
          | r => String backtick r
          end).
  rewrite R. destruct a as [| x a]; [reflexivity |].
  simpl in Ha. apply andb_prop in Ha as [Hx _].
  unfold not_backtick in Hx. apply negb_true_iff in Hx.
  rewrite lstrip_by_cons_in by apply Ascii.eqb_refl.
  apply lstrip_by_cons_out. now rewrite Ascii.eqb_sym.
Qed.

Lemma strip_chr_quoted (name : string) :
  Str.all not_backtick name = true ->
  Str.strip_chr backtick (quoted name) = name.
Proof.
  intros Hn. unfold quoted, Str.strip_chr, Str.strip_by.
  change (String backtick (name ++ String backtick ""))
    with ((String backtick name) ++ String backtick "").
  rewrite rstrip_by_all by reflexivity.
  now apply strip_chr_after_backtick.
Qed.

End LineText.

Section ColumnLine.

Lemma all_impl (f g : ascii -> bool) (s : string) :
  (forall c, f c = true -> g c = true) ->
  Str.all f s = true -> Str.all g s = true.
Proof.
  intros I. induction s as [| x s IH]; simpl; trivial.
  intros H. apply andb_prop in H as [Hx Hs]. now rewrite (I _ Hx), IH.
Qed.

Lemma comma_not_space c : is_comma c = true -> negb (Str.isspace c) = true.
Proof. unfold is_comma. intros H. apply Ascii.eqb_eq in H. now subst c. Qed.

Variables strict verbose : bool.

(** A line whose first part begins with a backtick: the name is that part
    without its backticks and the type is the second part. *)
Lemma extract_line_parts cols pks raw (part0 gap ty tail : string) :
  clean raw = String backtick part0 ++ gap ++ ty ++ tail ->
  Str.all not_space part0 = true ->
  Str.all Str.isspace gap = true -> gap <> "" ->
  Str.all not_space ty = true -> ty <> "" ->
  part_ends tail = true ->
  extract_line strict verbose (cols, pks) raw
  = bind (convert_mysql_type (Str.strip_chr backtick (String backtick part0))
                             ty strict verbose)
         (fun tys =>
            ret ((cols ++ [(Str.strip_chr backtick (String backtick part0),
                            fst tys, snd tys)])%list, pks)).
Proof.
  intros Hraw Hp Hg Ng Ht Nt He.
  destruct (split_two_parts (String backtick part0) gap ty tail)
    as (more & Hs); trivial; try discriminate.
  rewrite <- Hraw in Hs.
  apply extract_line_column with (more := more); trivial.
  rewrite Hraw. reflexivity.
Qed.

End ColumnLine.

(** X8: the cleaning of a line takes away the whitespace around it and
    then the commas at its end, and nothing else: of a text that neither
    begins with whitespace nor ends with whitespace or a comma, put between
    whitespace and followed by commas, it leaves that text. *)
Theorem clean_keeps_the_body (ws1 ws2 commas body mid pre : string) a z :
  Str.all Str.isspace ws1 = true ->
  Str.all Str.isspace ws2 = true ->
  Str.all is_comma commas = true ->
  body = String a mid -> Str.isspace a = false ->
  body = pre ++ String z "" -> Str.isspace z = false -> is_comma z = false ->
  clean (ws1 ++ body ++ commas ++ ws2) = body.
Proof.
  intros H1 H2 Hc Ha Sa Hz Sz Cz.
  unfold clean, Str.strip, Str.strip_by, Str.rstrip_chr.
  assert (E1 : Str.rstrip_by Str.isspace (ws1 ++ body ++ commas ++ ws2)
               = ws1 ++ body ++ commas).
  { replace (ws1 ++ body ++ commas ++ ws2)
      with ((ws1 ++ body ++ commas) ++ ws2) by (now rewrite !append_assoc).
    rewrite rstrip_by_all by assumption.
    rewrite Hz at 1.
    replace (ws1 ++ (pre ++ String z "") ++ commas)
      with ((ws1 ++ pre) ++ String z commas) by (now rewrite !append_assoc).
    assert (R : Str.rstrip_by Str.isspace (String z commas) = String z commas).
    { apply rstrip_by_none. simpl. rewrite Sz. simpl.
      exact (all_impl _ _ _ comma_not_space Hc). }
    rewrite rstrip_by_append by (rewrite R; discriminate).
    rewrite R, Hz. now rewrite !append_assoc. }
  rewrite E1.
  rewrite lstrip_by_all by assumption.
  assert (E2 : Str.lstrip_by Str.isspace (body ++ commas) = body ++ commas).
  { rewrite Ha. now apply lstrip_by_cons_out. }
  rewrite E2.
  rewrite rstrip_by_all by assumption.
  rewrite Hz. now apply rstrip_by_last.
Qed.

Lemma clean_keeps_the_body_witness :
  clean ("  " ++ "`id` int NOT NULL" ++ ",," ++ " ") = "`id` int NOT NULL".
Proof.
  apply (clean_keeps_the_body "  " " " ",," "`id` int NOT NULL"
                              "id` int NOT NULL" "`id` int NOT NUL" "`" "L");
    reflexivity.
Defined.

(** X9: a cleaned line made of a quoted name without whitespace or
    backtick, some whitespace, a type without whitespace, and then nothing
    or whitespace and anything, adds one column: the name, with the types
    that the resolver gives for that type text.  What follows the type on
    the line is not read, and the keys stay as they are. *)
Theorem column_line_is_read_as_name_and_type
        strict verbose cols pks raw (name gap ty tail : string) :
  clean raw = quoted name ++ gap ++ ty ++ tail ->
  Str.all not_space name = true ->
  Str.all not_backtick name = true ->
  Str.all Str.isspace gap = true -> gap <> "" ->
  Str.all not_space ty = true -> ty <> "" ->
  part_ends tail = true ->
  extract_line strict verbose (cols, pks) raw
  = bind (convert_mysql_type name ty strict verbose)
         (fun tys => ret ((cols ++ [(name, fst tys, snd tys)])%list, pks)).
Proof.
  intros Hraw Hs Hb Hg Ng Ht Nt He.
  rewrite (extract_line_parts strict verbose cols pks raw
             (name ++ String backtick "") gap ty tail); trivial.
  - change (String backtick (name ++ String backtick "")) with (quoted name).
    now rewrite strip_chr_quoted.
  - rewrite all_append, Hs. reflexivity.
Qed.

Lemma column_line_is_read_as_name_and_type_witness :
  extract_line false false ([], ["id"])
               "  `amount` decimal(10,2) unsigned DEFAULT '0.00',"
  = bind (convert_mysql_type "amount" "decimal(10,2)" false false)
         (fun tys => ret (([] ++ [("amount", fst tys, snd tys)])%list, ["id"])).
Proof.
  apply (column_line_is_read_as_name_and_type
           false false [] ["id"]
           "  `amount` decimal(10,2) unsigned DEFAULT '0.00',"
           "amount" " " "decimal(10,2)" " unsigned DEFAULT '0.00'");
    try reflexivity; discriminate.
Defined.

(** X10: the name is cut at the first whitespace, inside the backticks as
    well: on a cleaned line whose quoted identifier is [a], whitespace,
    [b], the column is named [a] and the text resolved as its type is [b]
    with the closing backtick; the type written after the identifier is
    not read. *)
Theorem identifier_with_space_is_cut
        strict verbose cols pks raw (a gap b tail : string) :
  clean raw = String backtick a ++ gap ++ (b ++ String backtick "") ++ tail ->
  Str.all not_space a = true ->
  Str.all not_backtick a = true ->
  Str.all Str.isspace gap = true -> gap <> "" ->
  Str.all not_space b = true ->
  part_ends tail = true ->
  extract_line strict verbose (cols, pks) raw
  = bind (convert_mysql_type a (b ++ String backtick "") strict verbose)
         (fun tys => ret ((cols ++ [(a, fst tys, snd tys)])%list, pks)).
Proof.
  intros Hraw Hs Hb Hg Ng Ht He.
  rewrite (extract_line_parts strict verbose cols pks raw
             a gap (b ++ String backtick "") tail); trivial.
  - now rewrite strip_chr_after_backtick.
  - rewrite all_append, Ht. reflexivity.
  - destruct b; discriminate.
Qed.

Lemma identifier_with_space_is_cut_witness :
  extract_line false false ([], []) "  `order date` varchar(10) NOT NULL,"
  = bind (convert_mysql_type "order" "date`" false false)
         (fun tys => ret (([] ++ [("order", fst tys, snd tys)])%list, [])).
Proof.
  apply (identifier_with_space_is_cut
           false false [] [] "  `order date` varchar(10) NOT NULL,"
           "order" " " "date" " varchar(10) NOT NULL");
    try reflexivity; discriminate.
Defined.

(* ====================================================================== *)
(** ** The lines of the generated texts *)
(* ====================================================================== *)

Section GeneratedLines.

Lemma split_chr_none c (s : string) :
  Str.all (fun x => negb (Ascii.eqb x c)) s = true -> Str.split_chr c s = [s].
Proof.
  induction s as [| x s IH]; simpl; trivial.
  intros H. apply andb_prop in H as [Hx Hs]. apply negb_true_iff in Hx.
  now rewrite Hx, (IH Hs).
Qed.

Lemma lines_of_line (x rest : string) :
  no_newline x = true ->
  lines_of (x ++ String (ascii_of_nat 10) rest) = x :: lines_of rest.
Proof.
  intros H. unfold lines_of. rewrite split_chr_append.
  now rewrite (split_chr_none _ _ H).
Qed.

Lemma lines_of_join_commas (l : list string) (rest : string) :
  l <> [] -> forallb no_newline l = true ->
  lines_of (Str.join ("," ++ nl) l ++ String (ascii_of_nat 10) rest)
  = (with_commas l ++ lines_of rest)%list.
Proof.
  induction l as [| x l IH]; [congruence |]. intros _ H.
  simpl in H. apply andb_prop in H as [Hx Hl].
  destruct l as [| y l].
  - simpl. now apply lines_of_line.
  - change (Str.join ("," ++ nl) (x :: y :: l))
      with (x ++ ("," ++ nl) ++ Str.join ("," ++ nl) (y :: l)).
    change (with_commas (x :: y :: l)) with ((x ++ ",") :: with_commas (y :: l)).
    replace ((x ++ ("," ++ nl) ++ Str.join ("," ++ nl) (y :: l))
             ++ String (ascii_of_nat 10) rest)
      with ((x ++ ",")
            ++ String (ascii_of_nat 10)
                 (Str.join ("," ++ nl) (y :: l) ++ String (ascii_of_nat 10) rest))
      by (unfold nl; now rewrite !append_assoc).
    rewrite lines_of_line.
    + simpl. f_equal. apply IH; [discriminate | exact Hl].
    + unfold no_newline in *. rewrite all_append, Hx. reflexivity.
Qed.

Lemma lines_of_join (l : list string) (rest : string) :
  l <> [] -> forallb no_newline l = true ->
  lines_of (Str.join nl l ++ String (ascii_of_nat 10) rest)
  = (l ++ lines_of rest)%list.
Proof.
  induction l as [| x l IH]; [congruence |]. intros _ H.
  simpl in H. apply andb_prop in H as [Hx Hl].
  destruct l as [| y l].
  - simpl. now apply lines_of_line.
  - change (Str.join nl (x :: y :: l)) with (x ++ nl ++ Str.join nl (y :: l)).
    replace ((x ++ nl ++ Str.join nl (y :: l)) ++ String (ascii_of_nat 10) rest)
      with (x ++ String (ascii_of_nat 10)
                   (Str.join nl (y :: l) ++ String (ascii_of_nat 10) rest))
      by (unfold nl; now rewrite !append_assoc).
    rewrite lines_of_line by assumption.
    simpl. f_equal. apply IH; [discriminate | exact Hl].
Qed.

Lemma join_snoc sep (l : list string) (y : string) :
  l <> [] -> Str.join sep (l ++ [y]) = Str.join sep l ++ sep ++ y.
Proof.
  induction l as [| x l IH]; [congruence |]. intros _.
  destruct l as [| x' l]; [reflexivity |].
  change (Str.join sep ((x :: x' :: l) ++ [y]))
    with (x ++ sep ++ Str.join sep ((x' :: l) ++ [y])).
  rewrite IH by discriminate.
  change (Str.join sep (x :: x' :: l)) with (x ++ sep ++ Str.join sep (x' :: l)).
  now rewrite !append_assoc.
Qed.

Lemma hive_line_no_newline pks c :
  no_newline (col_name c) && no_newline (col_hive c) = true ->
  no_newline (hive_line pks c) = true.
Proof.
  destruct c as [[col hive_type] pq].
  unfold col_name, col_hive, hive_line. cbn [fst snd].
  intros H. apply andb_prop in H as [Hc Hh].
  unfold no_newline in *.
  destruct (Str.mem col pks); rewrite !all_append, Hc, Hh; reflexivity.
Qed.

Lemma parquet_line_no_newline c :
  no_newline (col_name c) && no_newline (pa.str (col_parquet c)) = true ->
  no_newline (parquet_line c) = true.
Proof.
  destruct c as [[col hive_type] pq].
  unfold col_name, col_parquet, parquet_line. cbn [fst snd].
  intros H. apply andb_prop in H as [Hc Hp].
  unfold no_newline in *. rewrite !all_append, Hc, Hp. reflexivity.
Qed.

Lemma forallb_map_lines {A} (f : A -> string) (ok : A -> bool) (l : list A) :
  (forall a, ok a = true -> no_newline (f a) = true) ->
  forallb ok l = true -> forallb no_newline (List.map f l) = true.
Proof.
  intros I. induction l as [| a l IH]; simpl; trivial.
  intros H. apply andb_prop in H as [Ha Hl]. now rewrite (I _ Ha), IH.
Qed.

(** The lines of the Hive statement of a table with columns. *)
Lemma hive_ddl_lines tbl columns pks :
  columns <> [] ->
  no_newline tbl = true ->
  forallb (fun c => no_newline (col_name c) && no_newline (col_hive c)) columns
  = true ->
  lines_of (generate_hive_ddl tbl columns pks)
  = (("CREATE TABLE " ++ tbl ++ " (")%string
       :: with_commas (List.map (hive_line pks) columns)
       ++ [")"; "STORED AS PARQUET;"; ""])%list.
Proof.
  intros Hne Ht Hc. unfold generate_hive_ddl.
  replace ((("CREATE TABLE " ++ tbl ++ " (" ++ nl)
              ++ Str.join ("," ++ nl) (List.map (hive_line pks) columns))
             ++ nl ++ ")" ++ nl ++ "STORED AS PARQUET;" ++ nl)
    with (("CREATE TABLE " ++ tbl ++ " (")
            ++ String (ascii_of_nat 10)
                 (Str.join ("," ++ nl) (List.map (hive_line pks) columns)
                    ++ String (ascii_of_nat 10)
                         (")" ++ String (ascii_of_nat 10)
                                  ("STORED AS PARQUET;"
                                     ++ String (ascii_of_nat 10) ""))))
    by (unfold nl; now rewrite !append_assoc).
  rewrite lines_of_line.
  - f_equal. rewrite lines_of_join_commas.
    + reflexivity.
    + destruct columns; [congruence | discriminate].
    + apply (forallb_map_lines _ _ _ (hive_line_no_newline pks) Hc).
  - unfold no_newline in *. now rewrite !all_append, Ht.
Qed.

Lemma in_with_commas (l1 l2 : list string) (x y : string) :
  In (x ++ ",") (with_commas (l1 ++ x :: y :: l2)).
Proof.
  induction l1 as [| a l1 IH].
  - now left.
  - change ((a :: l1) ++ x :: y :: l2)%list with (a :: (l1 ++ x :: y :: l2))%list.
    destruct (l1 ++ x :: y :: l2)%list eqn:E.
    + destruct l1; discriminate.
    + change (with_commas (a :: s :: l))
        with ((a ++ ",") :: with_commas (s :: l)).
      now right.
Qed.

End GeneratedLines.

(** X11: the Hive statement of a table with columns, cut at its newlines,
    is the opening line with the table name, one line for each column in
    the order of the columns, each but the last ending with a comma, then
    the closing parenthesis, the storage line and an empty last line
    (names and types being free of newlines). *)
Theorem hive_ddl_has_one_line_per_column tbl columns pks :
  columns <> [] ->
  no_newline tbl = true ->
  forallb (fun c => no_newline (col_name c) && no_newline (col_hive c)) columns
  = true ->
  lines_of (generate_hive_ddl tbl columns pks)
  = (("CREATE TABLE " ++ tbl ++ " (")%string
       :: with_commas (List.map (hive_line pks) columns)
       ++ [")"; "STORED AS PARQUET;"; ""])%list
  /\ List.length (lines_of (generate_hive_ddl tbl columns pks))
     = List.length columns + 4.
Proof.
  intros Hne Ht Hc. rewrite (hive_ddl_lines tbl columns pks Hne Ht Hc).
  split; trivial. simpl. rewrite length_app. simpl.
  assert (L : forall l : list string,
             List.length (with_commas l) = List.length l).
  { induction l as [| x [| y l] IH]; trivial.
    change (with_commas (x :: y :: l)) with ((x ++ ",") :: with_commas (y :: l)).
    simpl in *. now rewrite IH. }
  rewrite L, length_map. lia.
Qed.

Lemma hive_ddl_has_one_line_per_column_witness :
  lines_of (generate_hive_ddl
              "orders" [("id", "BIGINT", pa.int64); ("note", "STRING", pa.string)]
              ["id"])
  = ["CREATE TABLE orders ("; "  `id` BIGINT -- PRIMARY KEY,"; "  `note` STRING";
     ")"; "STORED AS PARQUET;"; ""]
  /\ List.length
       (lines_of (generate_hive_ddl
                    "orders"
                    [("id", "BIGINT", pa.int64); ("note", "STRING", pa.string)]
                    ["id"]))
     = 2 + 4.
Proof.
  apply (hive_ddl_has_one_line_per_column
           "orders" [("id", "BIGINT", pa.int64); ("note", "STRING", pa.string)]
           ["id"]); [discriminate | reflexivity | reflexivity].
Defined.

(** X12: in the Hive statement the comma that separates a primary-key
    column from the column after it stands on the line of the key column
    after the marker [-- PRIMARY KEY], that is, inside the comment. *)
Theorem primary_key_comma_follows_the_comment_marker
        tbl pks before c next after :
  Str.mem (col_name c) pks = true ->
  no_newline tbl = true ->
  forallb (fun c => no_newline (col_name c) && no_newline (col_hive c))
          (before ++ c :: next :: after)
  = true ->
  In ("  `" ++ col_name c ++ "` " ++ col_hive c ++ " -- PRIMARY KEY" ++ ",")
     (lines_of (generate_hive_ddl tbl (before ++ c :: next :: after) pks)).
Proof.
  intros Hm Ht Hc.
  rewrite hive_ddl_lines; trivial; [| now destruct before].
  right. apply in_or_app. left.
  rewrite map_app. simpl List.map.
  replace ("  `" ++ col_name c ++ "` " ++ col_hive c ++ " -- PRIMARY KEY" ++ ",")
    with (hive_line pks c ++ ",").
  - apply in_with_commas.
  - destruct c as [[col hive_type] pq].
    unfold col_name, col_hive, hive_line in *. cbn [fst snd] in *.
    rewrite Hm. now rewrite !append_assoc.
Qed.

Lemma primary_key_comma_follows_the_comment_marker_witness :
  In "  `id` INT -- PRIMARY KEY,"
     (lines_of (generate_hive_ddl
                  "orders"
                  [("id", "INT", pa.int32); ("name", "STRING", pa.string)]
                  ["id"])).
Proof.
  apply (primary_key_comma_follows_the_comment_marker
           "orders" ["id"] [] ("id", "INT", pa.int32)
           ("name", "STRING", pa.string) []); reflexivity.
Defined.

(** The lines of the schema text. *)
Lemma parquet_schema_lines tbl columns :
  no_newline tbl = true ->
  forallb (fun c => no_newline (col_name c)
                    && no_newline (pa.str (col_parquet c))) columns
  = true ->
  lines_of (generate_parquet_schema tbl columns)
  = ((tbl ++ "_schema = pa.schema([")%string
       :: List.map parquet_line columns ++ ["])"; ""])%list.
Proof.
  intros Ht Hc. unfold generate_parquet_schema.
  change ([(tbl ++ "_schema = pa.schema([")%string]
            ++ List.map parquet_line columns ++ [("])" ++ nl)%string])%list
    with (((tbl ++ "_schema = pa.schema([")%string
             :: List.map parquet_line columns)
            ++ [("])" ++ nl)%string])%list.
  rewrite join_snoc by discriminate.
  change (nl ++ "])" ++ nl)
    with (String (ascii_of_nat 10) ("])" ++ String (ascii_of_nat 10) "")).
  rewrite lines_of_join; [reflexivity | discriminate |].
  simpl. rewrite (forallb_map_lines _ _ _ parquet_line_no_newline Hc).
  unfold no_newline in *. now rewrite all_append, Ht.
Qed.

(** X13: the schema text, cut at its newlines, is the opening line with
    the table name, one line for each column in the order of the columns,
    each ending with a comma, then the closing line and an empty last line
    (names and printed types being free of newlines). *)
Theorem parquet_schema_has_one_line_per_column tbl columns :
  no_newline tbl = true ->
  forallb (fun c => no_newline (col_name c)
                    && no_newline (pa.str (col_parquet c))) columns
  = true ->
  lines_of (generate_parquet_schema tbl columns)
  = ((tbl ++ "_schema = pa.schema([")%string
       :: List.map parquet_line columns ++ ["])"; ""])%list.
Proof. exact (parquet_schema_lines tbl columns). Qed.

Lemma parquet_schema_has_one_line_per_column_witness :
  lines_of (generate_parquet_schema
              "orders" [("id", "BIGINT", pa.int64);
                        ("amount", "DECIMAL(10,2)", pa.decimal128_ 10 2)])
  = ["orders_schema = pa.schema([";
     "    (" ++ dquote ++ "id" ++ dquote ++ ", pa.int64),";
     "    (" ++ dquote ++ "amount" ++ dquote ++ ", pa.decimal128(10, 2)),";
     "])"; ""].
Proof.
  apply (parquet_schema_has_one_line_per_column
           "orders" [("id", "BIGINT", pa.int64);
                     ("amount", "DECIMAL(10,2)", pa.decimal128_ 10 2)]);
    reflexivity.
Defined.

(* ====================================================================== *)
(** ** The run of [main] *)
(* ====================================================================== *)

Section Run.

Lemma filter_prints_only {A} (m : M A) :
  prints_only m -> filter is_append (events m) = [].
Proof.
  unfold prints_only. induction 1 as [| e evs He _ IH]; trivial.
  simpl. now rewrite He.
Qed.

Lemma validate_args_valid args :
  args_valid args = true -> validate_args args = ret tt.
Proof.
  unfold args_valid, validate_args.
  destruct (is_given (args_hive (core_args args))),
           (is_given (args_parquet (core_args args))),
           (is_given (args_password args)), (args_ask_pass args),
           (Str.is_empty (args_table args)); try discriminate; reflexivity.
Qed.

Lemma validate_args_invalid args :
  args_valid args = false ->
  exists msg, validate_args args = ([Print RED msg], Raise (SystemExit 1)).
Proof.
  unfold args_valid, validate_args.
  destruct (is_given (args_hive (core_args args))),
           (is_given (args_parquet (core_args args))),
           (is_given (args_password args)), (args_ask_pass args),
           (Str.is_empty (args_table args)); try discriminate;
    intros _; eexists; reflexivity.
Qed.

Lemma process_table_appends args tbl mysql_ddl evs0 columns pks :
  extract_columns mysql_ddl (args_strict args) (args_verbose args)
  = (evs0, Return (columns, pks)) ->
  exists evs,
    process_table args tbl mysql_ddl = (evs, Return tt)
    /\ filter is_append evs = table_appends args tbl columns pks.
Proof.
  intros H.
  assert (P : filter is_append evs0 = []).
  { pose proof (extract_lines_prints_only
                  (args_strict args) (args_verbose args)
                  (lines_of mysql_ddl) ([], [])) as Q.
    apply filter_prints_only in Q.
    unfold extract_columns in H. fold (lines_of mysql_ddl) in H.
    now rewrite H in Q. }
  unfold process_table, table_appends. rewrite H.
  destruct (given (args_hive args)) as [hp |],
           (given (args_parquet args)) as [pp |],
           (args_verbose args);
    (eexists; split; [reflexivity |]);
    cbn [app]; rewrite ?filter_app, P; reflexivity.
Qed.

Variable db : string -> option string.
Variable args : Namespace.

Lemma table_step_ok tbl :
  table_ok db args tbl = true ->
  exists evs,
    table_step db args tbl = (evs, Return tt)
    /\ filter is_append evs = table_outputs db args tbl.
Proof.
  unfold table_ok, table_step, table_outputs.
  destruct (db tbl) as [mysql_ddl |].
  - intros Hwf.
    destruct (extract_lines_returns (args_strict args) (args_verbose args)
                                    _ Hwf [] [])
      as (evs0 & columns & Hrun & _).
    change (extract_lines (args_strict args) (args_verbose args) ([], [])
                          (lines_of mysql_ddl))
      with (extract_columns mysql_ddl (args_strict args) (args_verbose args))
      in Hrun.
    destruct (process_table_appends args tbl _ _ _ _ Hrun) as (evs & Hp & Ha).
    rewrite Hp, Hrun. simpl result. cbv iota.
    destruct (args_verbose args); eexists; (split; [reflexivity |]);
      simpl; exact Ha.
  - intros _. destruct (args_verbose args); eexists; split; reflexivity.
Qed.

Lemma table_step_bad tbl :
  table_ok db args tbl = false ->
  exists evs e mysql_ddl,
    db tbl = Some mysql_ddl
    /\ result (extract_columns mysql_ddl (args_strict args) (args_verbose args))
       = Raise e
    /\ table_step db args tbl = (evs, Raise e)
    /\ filter is_append evs = [].
Proof.
  unfold table_ok, table_step.
  destruct (db tbl) as [mysql_ddl |]; [| discriminate].
  intros Hwf.
  destruct (extract_lines_fails (args_strict args) (args_verbose args)
                                _ Hwf ([], []))
    as (evs0 & e & Hrun).
  change (extract_lines (args_strict args) (args_verbose args) ([], [])
                        (lines_of mysql_ddl))
    with (extract_columns mysql_ddl (args_strict args) (args_verbose args))
    in Hrun.
  assert (P : filter is_append evs0 = []).
  { pose proof (extract_lines_prints_only
                  (args_strict args) (args_verbose args)
                  (lines_of mysql_ddl) ([], [])) as Q.
    apply filter_prints_only in Q.
    unfold extract_columns in Hrun. fold (lines_of mysql_ddl) in Hrun.
    now rewrite Hrun in Q. }
  rewrite (process_table_raises args tbl _ _ _ Hrun).
  exists ((if args_verbose args
           then [Print BLUE ("Processing table: " ++ tbl)] else []) ++ evs0)%list,
         e, mysql_ddl.
  rewrite Hrun.
  destruct (args_verbose args); repeat split; trivial.
Qed.

Lemma table_loop_ok tables :
  forallb (table_ok db args) tables = true ->
  exists evs,
    for_each (fun _ tbl => table_step db args tbl) tt tables = (evs, Return tt)
    /\ filter is_append evs = flat_map (table_outputs db args) tables.
Proof.
  induction tables as [| tbl tables IH]; simpl forallb.
  - intros _. exists []. split; reflexivity.
  - intros H. apply andb_prop in H as [Ht Hts].
    destruct (table_step_ok tbl Ht) as (evs1 & H1 & A1).
    destruct (IH Hts) as (evs2 & H2 & A2).
    exists (evs1 ++ evs2)%list. rewrite for_each_cons, H1. split.
    + cbn [bind]. now rewrite H2.
    + simpl flat_map. now rewrite filter_app, A1, A2.
Qed.

Lemma table_loop_stops before tbl after :
  forallb (table_ok db args) before = true ->
  table_ok db args tbl = false ->
  exists evs e mysql_ddl,
    db tbl = Some mysql_ddl
    /\ result (extract_columns mysql_ddl (args_strict args) (args_verbose args))
       = Raise e
    /\ for_each (fun _ tbl => table_step db args tbl) tt
                (before ++ tbl :: after)
       = (evs, Raise e)
    /\ filter is_append evs = flat_map (table_outputs db args) before.
Proof.
  intros Hb Ht.
  destruct (table_loop_ok before Hb) as (evs1 & H1 & A1).
  destruct (table_step_bad tbl Ht) as (evs2 & e & ddl & Hd & Hr & H2 & A2).
  exists (evs1 ++ evs2)%list, e, ddl.
  rewrite for_each_app, H1. cbn [bind]. rewrite for_each_cons, H2.
  repeat split; trivial.
  now rewrite filter_app, A1, A2, app_nil_r.
Qed.

End Run.

(** X14: when [validate_args] refuses the arguments (no output file, a
    password together with the prompt, or no table), [main] prints one
    error and exits with status 1, whatever the server: nothing else is
    printed, no connection message and no table is reached. *)
Theorem invalid_arguments_stop_main_at_once srv args :
  args_valid args = false ->
  exists msg, main srv args = ([Print RED msg], Raise (SystemExit 1)).
Proof.
  intros H. destruct (validate_args_invalid args H) as (msg & Hv).
  exists msg. unfold main. now rewrite Hv.
Qed.

Lemma invalid_arguments_stop_main_at_once_witness :
  exists msg,
    main (Serves (fun _ => None))
         {| core_args := {| args_hive := Some ""; args_parquet := None;
                            args_verbose := true; args_strict := false |};
            args_password := None; args_ask_pass := false;
            args_table := "orders" |}
    = ([Print RED msg], Raise (SystemExit 1)).
Proof.
  exact (invalid_arguments_stop_main_at_once
           (Serves (fun _ => None))
           {| core_args := {| args_hive := Some ""; args_parquet := None;
                              args_verbose := true; args_strict := false |};
              args_password := None; args_ask_pass := false;
              args_table := "orders" |}
           eq_refl).
Defined.

(** X15: with valid arguments and a server that, for each table of the
    list, has no row or a DDL text that the parser reads, [main] returns
    and ends on the line [Completed all tasks.]; what it has appended to
    the files is, table after table in the order of the list, the Hive
    text and then the schema text of that table, and nothing for a table
    without a row. *)
Theorem main_appends_the_outputs_in_table_order db args :
  args_valid args = true ->
  forallb (table_ok db (core_args args)) (tables_of args) = true ->
  exists evs,
    main (Serves db) args
    = ((evs ++ [Print GREEN "Completed all tasks."])%list, Return tt)
    /\ filter is_append evs
       = flat_map (table_outputs db (core_args args)) (tables_of args).
Proof.
  intros Hv Hok. unfold main. rewrite (validate_args_valid args Hv).
  destruct (table_loop_ok db (core_args args) _ Hok) as (evs & Hl & Ha).
  rewrite bind_ret_l, Hl.
  exists ((if args_verbose (core_args args)
           then [Print BLUE "Connecting to MySQL..."; Print GREEN "Connected."]
           else []) ++ evs)%list.
  destruct (args_verbose (core_args args)); (split; [reflexivity |]);
    simpl; exact Ha.
Qed.

(** X16: with valid arguments, [main] stops at the first table of the
    list whose DDL text the parser does not read, with the exception that
    the parser raises on that text; the files keep what was appended for
    the tables before it and get nothing for that table or for those
    after it. *)
Theorem main_stops_at_the_first_unreadable_table
        db args before tbl after :
  args_valid args = true ->
  tables_of args = (before ++ tbl :: after)%list ->
  forallb (table_ok db (core_args args)) before = true ->
  table_ok db (core_args args) tbl = false ->
  exists evs e mysql_ddl,
    db tbl = Some mysql_ddl
    /\ result (extract_columns mysql_ddl (args_strict (core_args args))
                               (args_verbose (core_args args)))
       = Raise e
    /\ main (Serves db) args = (evs, Raise e)
    /\ filter is_append evs
       = flat_map (table_outputs db (core_args args)) before.
Proof.
  intros Hv Ht Hb Hbad. unfold main. rewrite (validate_args_valid args Hv), Ht.
  destruct (table_loop_stops db (core_args args) before tbl after Hb Hbad)
    as (evs & e & ddl & Hd & Hr & Hl & Ha).
  rewrite bind_ret_l, Hl.
  exists ((if args_verbose (core_args args)
           then [Print BLUE "Connecting to MySQL..."; Print GREEN "Connected."]
           else []) ++ evs)%list, e, ddl.
  destruct (args_verbose (core_args args)); (split; [exact Hd |]);
    (split; [exact Hr |]); (split; [reflexivity |]); simpl; exact Ha.
Qed.

Lemma main_stops_at_the_first_unreadable_table_witness :
  let flags_ddl := "CREATE TABLE `flags` (" ++ nl ++
                   "  `mask` bit(8) NOT NULL" ++ nl ++ ")" in
  let db := fun tbl =>
              if String.eqb tbl "orders" then Some orders_ddl
              else if String.eqb tbl "flags" then Some flags_ddl
                   else Some orders_ddl in
  let args := {| core_args := {| args_hive := Some "hive.sql";
                                 args_parquet := None;
                                 args_verbose := false; args_strict := true |};
                 args_password := None; args_ask_pass := true;
                 args_table := "orders, flags, later" |} in
  exists evs e mysql_ddl,
    Some flags_ddl = Some mysql_ddl
    /\ result (extract_columns mysql_ddl true false) = Raise e
    /\ main (Serves db) args = (evs, Raise e)
    /\ filter is_append evs
       = [Append "hive.sql"
                 (generate_hive_ddl
                    "orders"
                    [("id", "INT", pa.int32); ("name", "STRING", pa.string);
                     ("amount", "DECIMAL(10,2)", pa.decimal128_ 10 2)]
                    ["id"] ++ nl ++ nl)].
Proof.
  exact (main_stops_at_the_first_unreadable_table
           (fun tbl =>
              if String.eqb tbl "orders" then Some orders_ddl
              else if String.eqb tbl "flags"
                   then Some ("CREATE TABLE `flags` (" ++ nl ++
                              "  `mask` bit(8) NOT NULL" ++ nl ++ ")")
                   else Some orders_ddl)
           {| core_args := {| args_hive := Some "hive.sql";
                              args_parquet := None;
                              args_verbose := false; args_strict := true |};
              args_password := None; args_ask_pass := true;
              args_table := "orders, flags, later" |}
           ["orders"] "flags" ["later"]
           eq_refl eq_refl eq_refl eq_refl).
Defined.

Lemma main_appends_the_outputs_in_table_order_witness :
  let db := fun tbl =>
              if String.eqb tbl "orders" then Some orders_ddl else None in
  let args := {| core_args := {| args_hive := Some "hive.sql";
                                 args_parquet := Some "schema.py";
                                 args_verbose := true; args_strict := false |};
                 args_password := Some "secret"; args_ask_pass := false;
                 args_table := "ghost, orders" |} in
  exists evs,
    main (Serves db) args
    = ((evs ++ [Print GREEN "Completed all tasks."])%list, Return tt)
    /\ filter is_append evs
       = flat_map (table_outputs db (core_args args)) ["ghost"; "orders"].
Proof.
  exact (main_appends_the_outputs_in_table_order
           (fun tbl =>
              if String.eqb tbl "orders" then Some orders_ddl else None)
           {| core_args := {| args_hive := Some "hive.sql";
                              args_parquet := Some "schema.py";
                              args_verbose := true; args_strict := false |};
              args_password := Some "secret"; args_ask_pass := false;
              args_table := "ghost, orders" |}
           eq_refl eq_refl).
Defined.

(* ====================================================================== *)
(** ** What the parser returns *)
(* ====================================================================== *)

Section ParserOutput.

Lemma all_lstrip_by cls f (s : string) :
  Str.all cls s = true -> Str.all cls (Str.lstrip_by f s) = true.
Proof.
  induction s as [| x s IH]; simpl; trivial.
  intros H. destruct (f x); [| exact H].
  apply andb_prop in H as [_ Hs]. auto.
Qed.

Lemma all_rstrip_by cls f (s : string) :
  Str.all cls s = true -> Str.all cls (Str.rstrip_by f s) = true.
Proof.
  induction s as [| x s IH]; simpl; trivial.
  intros H. apply andb_prop in H as [Hx Hs]. specialize (IH Hs).
  destruct (Str.rstrip_by f s) as [| y r].
  - destruct (f x); simpl; trivial. now rewrite Hx.
  - change (Str.all cls (String x (String y r)))
      with (cls x && Str.all cls (String y r)).
    now rewrite Hx, IH.
Qed.

Lemma split_ws_from_parts cur (s : string) :
  Str.all not_space cur = true ->
  Forall (fun t => Str.all not_space t = true) (Str.split_ws_from cur s).
Proof.
  revert cur. induction s as [| c s IH]; intros cur Hcur; simpl.
  - destruct (Str.is_empty cur); repeat constructor; trivial.
  - destruct (Str.isspace c) eqn:Hc.
    + destruct (Str.is_empty cur); [| constructor; trivial]; now apply IH.
    + apply IH. rewrite all_append, Hcur. unfold not_space at 1. simpl.
      now rewrite Hc.
Qed.

Lemma declared_name_no_space line :
  Str.all not_space (declared_name line) = true.
Proof.
  unfold declared_name, Str.strip_chr, Str.strip_by.
  apply all_lstrip_by, all_rstrip_by.
  pose proof (split_ws_from_parts "" line eq_refl) as F.
  fold (Str.split line) in F.
  destruct (Str.split line) as [| t ts]; [reflexivity |].
  now inversion F.
Qed.

Lemma no_space_no_newline (s : string) :
  Str.all not_space s = true -> no_newline s = true.
Proof.
  apply all_impl. intros c H. unfold not_newline.
  destruct (Ascii.eqb_spec c (ascii_of_nat 10)) as [-> | _]; trivial.
Qed.

Lemma uint_some_digits (g : string) d :
  NilEmpty.uint_of_string g = Some d -> Str.all Str.isdigit g = true.
Proof.
  revert d. induction g as [| c g IH]; intros d; simpl; trivial.
  destruct (NilEmpty.uint_of_string g) as [d0 |]; [| discriminate].
  intros H. rewrite (IH d0 eq_refl), andb_true_r.
  apply uint_of_char_spec in H.
  repeat (destruct H as [[-> _] | H]; [reflexivity |]).
  now destruct H as [-> _].
Qed.

Lemma int_some_digits (g : string) n :
  pa.int g = Some n -> Str.all Str.isdigit g = true.
Proof.
  unfold pa.int, NilZero.uint_of_string.
  destruct (pa.MAX_STR_DIGITS <? String.length g)%nat; [discriminate |].
  destruct g as [| c g]; [discriminate |].
  destruct (NilEmpty.uint_of_string (String c g)) as [d |] eqn:E;
    [| discriminate].
  intros _. exact (uint_some_digits _ _ E).
Qed.

Lemma digits_no_newline (g : string) :
  Str.all Str.isdigit g = true -> no_newline g = true.
Proof.
  apply all_impl. intros c H. unfold not_newline.
  destruct (Ascii.eqb_spec c (ascii_of_nat 10)) as [-> | _]; trivial.
Qed.

Lemma paired_no_newline h p :
  paired h p -> no_newline h = true /\ no_newline (pa.str p) = true.
Proof.
  destruct p; cbn [paired];
    try (intros ->; split; reflexivity).
  - intros (_ & g1 & g2 & -> & H1 & H2). unfold pa.str. split.
    + unfold no_newline. rewrite !all_append.
      apply int_some_digits, digits_no_newline in H1, H2.
      unfold no_newline in H1, H2. now rewrite H1, H2.
    + unfold no_newline. rewrite !all_append.
      pose proof (digits_no_newline _ (dec_digits precision)) as D1.
      pose proof (digits_no_newline _ (dec_digits scale)) as D2.
      unfold no_newline in D1, D2. now rewrite D1, D2.
  - intros [-> ->]. split; reflexivity.
Qed.

Variables strict verbose : bool.

(** A run of the parser that returns, read backwards. *)
Lemma extract_columns_inv mysql_ddl evs columns pks :
  extract_columns mysql_ddl strict verbose = (evs, Return (columns, pks)) ->
  Forall2 (resolved_as strict verbose) (column_lines (lines_of mysql_ddl)) columns
  /\ pks = pk_entries (lines_of mysql_ddl).
Proof.
  intros H. unfold extract_columns in H. fold (lines_of mysql_ddl) in H.
  destruct (forallb (column_line_ok strict) (lines_of mysql_ddl)) eqn:Hwf.
  - destruct (extract_lines_returns strict verbose _ Hwf [] [])
      as (evs' & cols' & Hrun & Hcols).
    rewrite Hrun in H. injection H as _ <- <-. now split.
  - destruct (extract_lines_fails strict verbose _ Hwf ([], []))
      as (evs' & e & Hrun).
    rewrite Hrun in H. discriminate.
Qed.

Lemma resolved_as_column_ok line c :
  resolved_as strict verbose line c -> column_ok c.
Proof.
  intros [Hn Hr]. split.
  - rewrite Hn. apply declared_name_no_space.
  - destruct (convert_mysql_type (declared_name line) (declared_type line)
                                 strict verbose) as [evs r] eqn:E.
    simpl in Hr. subst r.
    exact (convert_returns_paired strict verbose _ _ _ _ _ E).
Qed.

Lemma extract_columns_columns_ok mysql_ddl evs columns pks :
  extract_columns mysql_ddl strict verbose = (evs, Return (columns, pks)) ->
  Forall column_ok columns.
Proof.
  intros H. apply extract_columns_inv in H as [F _].
  induction F as [| line c lines cols R _ IH]; constructor; trivial.
  exact (resolved_as_column_ok _ _ R).
Qed.

End ParserOutput.

Section Keys.

Lemma findall_from_identifiers skip (s : string) :
  Forall (fun id => identifier_ok id = true)
         (Re.findall_from quoted_identifier skip s).
Proof.
  revert skip. induction s as [| c s IH]; intros skip; [constructor |].
  destruct skip as [| skip]; [| apply IH].
  change (Re.findall_from quoted_identifier 0 (String c s))
    with (match Re.match_ quoted_identifier (String c s) with
          | Some m =>
              (Re.groups m
               ++ Re.findall_from quoted_identifier
                    (String.length (String c s)
                     - String.length (Re.rest m) - 1) s)%list
          | None => Re.findall_from quoted_identifier 0 s
          end).
  destruct (Re.match_ quoted_identifier (String c s)) as [m |] eqn:E;
    [| apply IH].
  apply Forall_app. split; [| apply IH].
  unfold quoted_identifier in E.
  apply match_lit_inv in E as (s1 & _ & E).
  apply match_plus_inv in E as (k & m' & Hk & E & Hg & _).
  apply match_lit_inv in E as (s2 & _ & E).
  injection E as <-. rewrite Hg. simpl. constructor; [| constructor].
  unfold identifier_ok.
  rewrite (take_in_run not_backtick k s1) by lia.
  pose proof (take_in_run_nonempty not_backtick k s1 Hk) as N.
  destruct (Str.take k s1); [congruence | reflexivity].
Qed.

Lemma pk_entries_identifiers raws :
  Forall (fun id => identifier_ok id = true) (pk_entries raws).
Proof.
  induction raws as [| raw raws IH]; [constructor |].
  change (pk_entries (raw :: raws))
    with (pk_entry raw ++ pk_entries raws)%list.
  apply Forall_app. split; trivial.
  unfold pk_entry. destruct (is_primary_key_line (clean raw));
    [apply findall_from_identifiers | constructor].
Qed.

End Keys.

(** X17: every column that the parser returns has a name without
    whitespace (hence without newline) and a Hive type and a PyArrow type
    of the same kind. *)
Theorem parser_returns_sound_columns
        mysql_ddl strict verbose evs columns pks :
  extract_columns mysql_ddl strict verbose = (evs, Return (columns, pks)) ->
  Forall column_ok columns.
Proof. apply extract_columns_columns_ok. Qed.

Lemma parser_returns_sound_columns_witness :
  Forall column_ok [("id", "INT", pa.int32);
                    ("name", "STRING", pa.string);
                    ("amount", "DECIMAL(10,2)", pa.decimal128_ 10 2)].
Proof.
  exact (parser_returns_sound_columns orders_ddl false false [] _ ["id"] eq_refl).
Defined.

(** X18: every primary key that the parser returns is a non-empty text
    without backtick, and the keys are the quoted identifiers of the key
    lines in the order of the lines. *)
Theorem parser_returns_clean_primary_keys
        mysql_ddl strict verbose evs columns pks :
  extract_columns mysql_ddl strict verbose = (evs, Return (columns, pks)) ->
  pks = pk_entries (lines_of mysql_ddl)
  /\ Forall (fun id => identifier_ok id = true) pks.
Proof.
  intros H. apply extract_columns_inv in H as [_ ->].
  split; [reflexivity | apply pk_entries_identifiers].
Qed.

Lemma parser_returns_clean_primary_keys_witness :
  ["id"] = pk_entries (lines_of orders_ddl)
  /\ Forall (fun id => identifier_ok id = true) ["id"].
Proof.
  exact (parser_returns_clean_primary_keys
           orders_ddl true true [] _ ["id"] eq_refl).
Defined.

(** X19: from the DDL text to the two output texts: when the parser
    returns, the schema text has one line per column-declaration line of
    the DDL text besides its opening line, its closing line and the empty
    last line, and so has the Hive statement, besides its four other
    lines, when there is a column (the table name being free of
    newlines). *)
Theorem outputs_have_one_line_per_declared_column
        mysql_ddl strict verbose tbl evs columns pks :
  extract_columns mysql_ddl strict verbose = (evs, Return (columns, pks)) ->
  no_newline tbl = true ->
  List.length (lines_of (generate_parquet_schema tbl columns))
  = List.length (column_lines (lines_of mysql_ddl)) + 3
  /\ (columns <> [] ->
      List.length (lines_of (generate_hive_ddl tbl columns pks))
      = List.length (column_lines (lines_of mysql_ddl)) + 4).
Proof.
  intros H Ht.
  pose proof (extract_columns_columns_ok _ _ _ _ _ _ H) as Hok.
  apply extract_columns_inv in H as [F _].
  apply Forall2_length in F. rewrite F.
  assert (Hh : forallb (fun c => no_newline (col_name c)
                                 && no_newline (col_hive c)) columns = true).
  { apply forallb_forall. intros c Hc.
    rewrite Forall_forall in Hok. destruct (Hok c Hc) as [Hn Hp].
    apply paired_no_newline in Hp as [Hp _].
    now rewrite (no_space_no_newline _ Hn), Hp. }
  assert (Hq : forallb (fun c => no_newline (col_name c)
                                 && no_newline (pa.str (col_parquet c)))
                       columns = true).
  { apply forallb_forall. intros c Hc.
    rewrite Forall_forall in Hok. destruct (Hok c Hc) as [Hn Hp].
    apply paired_no_newline in Hp as [_ Hp].
    now rewrite (no_space_no_newline _ Hn), Hp. }
  split.
  - rewrite (parquet_schema_lines tbl columns Ht Hq).
    simpl. rewrite length_app, length_map. simpl. lia.
  - intros Hne. rewrite (hive_ddl_lines tbl columns pks Hne Ht Hh).
    simpl. rewrite length_app. simpl.
    assert (L : forall l : list string,
               List.length (with_commas l) = List.length l).
    { induction l as [| x [| y l] IH]; trivial.
      change (with_commas (x :: y :: l))
        with ((x ++ ",") :: with_commas (y :: l)).
      simpl in *. now rewrite IH. }
    rewrite L, length_map. lia.
Qed.

Lemma outputs_have_one_line_per_declared_column_witness :
  List.length (lines_of (generate_parquet_schema
                           "orders"
                           [("id", "INT", pa.int32);
                            ("name", "STRING", pa.string);
                            ("amount", "DECIMAL(10,2)", pa.decimal128_ 10 2)]))
  = List.length (column_lines (lines_of orders_ddl)) + 3
  /\ ([("id", "INT", pa.int32);
       ("name", "STRING", pa.string);
       ("amount", "DECIMAL(10,2)", pa.decimal128_ 10 2)] <> [] ->
      List.length (lines_of (generate_hive_ddl
                               "orders"
                               [("id", "INT", pa.int32);
                                ("name", "STRING", pa.string);
                                ("amount", "DECIMAL(10,2)", pa.decimal128_ 10 2)]
                               ["id"]))
      = List.length (column_lines (lines_of orders_ddl)) + 4).
Proof.
  exact (outputs_have_one_line_per_declared_column
           orders_ddl false false "orders" [] _ ["id"] eq_refl eq_refl).
Defined.

(* ====================================================================== *)
(** ** The parser and the lines as the specification describes them *)
(* ====================================================================== *)

Section Described.

Lemma blank_isspace c : Decl.blank c = Str.isspace c.
Proof. destruct c as [[] [] [] [] [] [] [] []]; reflexivity. Qed.

Lemma lines_from_split cur (text : string) :
  Decl.lines_from cur text
  = match Str.split_chr (ascii_of_nat 10) text with
    | h :: t => (cur ++ h) :: t
    | [] => [cur]
    end.
Proof.
  revert cur. induction text as [| c text IH]; intros cur.
  - simpl. now rewrite append_nil_r.
  - change (Decl.lines_from cur (String c text))
      with (if Ascii.eqb c (ascii_of_nat 10)
            then cur :: Decl.lines_from "" text
            else Decl.lines_from (cur ++ String c "") text).
    change (Str.split_chr (ascii_of_nat 10) (String c text))
      with (if Ascii.eqb c (ascii_of_nat 10)
            then "" :: Str.split_chr (ascii_of_nat 10) text
            else match Str.split_chr (ascii_of_nat 10) text with
                 | h :: t => String c h :: t
                 | [] => [String c ""]
                 end).
    rewrite !IH.
    pose proof (split_chr_nonempty (ascii_of_nat 10) text) as Hne.
    destruct (Ascii.eqb c (ascii_of_nat 10)).
    + rewrite append_nil_r.
      destruct (Str.split_chr (ascii_of_nat 10) text); [congruence | trivial].
    + destruct (Str.split_chr (ascii_of_nat 10) text); [congruence |].
      now rewrite append_assoc.
Qed.

Lemma lines_described (text : string) : Decl.lines text = lines_of text.
Proof.
  unfold Decl.lines, lines_of. rewrite lines_from_split.
  pose proof (split_chr_nonempty (ascii_of_nat 10) text) as Hne.
  destruct (Str.split_chr (ascii_of_nat 10) text); [congruence | trivial].
Qed.

Lemma trim_left_lstrip (s : string) :
  Decl.trim_left s = Str.lstrip_by Str.isspace s.
Proof.
  induction s as [| c s IH]; simpl; trivial.
  now rewrite blank_isspace, IH.
Qed.

Lemma trim_right_rstrip (s : string) :
  Decl.trim_right s = Str.rstrip_by Str.isspace s.
Proof.
  induction s as [| c s IH]; simpl; trivial.
  rewrite blank_isspace, IH.
  destruct (Str.rstrip_by Str.isspace s), (Str.isspace c); reflexivity.
Qed.

Lemma lstrip_by_split cls (s : string) :
  exists pre, s = pre ++ Str.lstrip_by cls s /\ Str.all cls pre = true.
Proof.
  induction s as [| c s (pre & E & A)]; simpl.
  - exists "". now split.
  - destruct (cls c) eqn:Hc.
    + exists (String c pre). simpl. rewrite Hc, A.
      split; [congruence | reflexivity].
    + exists "". now split.
Qed.

Lemma lstrip_by_head cls (s : string) a r :
  Str.lstrip_by cls s = String a r -> cls a = false.
Proof.
  induction s as [| c s IH]; simpl; [discriminate |].
  destruct (cls c) eqn:Hc; [exact IH | now intros [= <- _]].
Qed.

Lemma rstrip_by_cases cls a (r : string) :
  (Str.rstrip_by cls (String a r) = "" /\ cls a = true)
  \/ exists r', Str.rstrip_by cls (String a r) = String a r'.
Proof.
  simpl. destruct (Str.rstrip_by cls r); [| eauto].
  destruct (cls a); eauto.
Qed.

Lemma rstrip_by_head cls a (r : string) :
  cls a = false -> exists r', Str.rstrip_by cls (String a r) = String a r'.
Proof.
  intros H. destruct (rstrip_by_cases cls a r) as [[_ E] | E]; [congruence | exact E].
Qed.

(** [s.strip()], the left side done first. *)
Lemma strip_by_left_first cls (s : string) :
  Str.strip_by cls s = Str.rstrip_by cls (Str.lstrip_by cls s).
Proof.
  unfold Str.strip_by.
  destruct (lstrip_by_split cls s) as (pre & E & A).
  destruct (Str.lstrip_by cls s) as [| a r] eqn:L.
  - rewrite append_nil_r in E. subst pre.
    replace s with ("" ++ s) at 1 by reflexivity.
    now rewrite (rstrip_by_all cls "" s A).
  - pose proof (lstrip_by_head cls s a r L) as Ha.
    destruct (rstrip_by_head cls a r Ha) as (r' & R).
    rewrite E at 1. rewrite rstrip_by_append by (rewrite R; discriminate).
    rewrite R, lstrip_by_all by assumption.
    now apply lstrip_by_cons_out.
Qed.

Lemma strip_described (raw : string) : Str.strip raw = Decl.trimmed raw.
Proof.
  unfold Str.strip, Decl.trimmed.
  now rewrite strip_by_left_first, trim_right_rstrip, trim_left_lstrip.
Qed.

Lemma clean_described (raw : string) :
  clean raw = Str.rstrip_by is_comma (Decl.trimmed raw).
Proof. unfold clean, Str.rstrip_chr. now rewrite strip_described. Qed.

Lemma trimmed_head (raw : string) a r :
  Decl.trimmed raw = String a r -> Str.isspace a = false.
Proof.
  unfold Decl.trimmed. rewrite trim_right_rstrip, trim_left_lstrip.
  destruct (Str.lstrip_by Str.isspace raw) as [| b t] eqn:L; [discriminate |].
  pose proof (lstrip_by_head _ _ _ _ L) as Hb.
  destruct (rstrip_by_head Str.isspace b t Hb) as (t' & ->).
  now intros [= <- _].
Qed.

(** The parser takes for a column line what is described as one. *)
Lemma column_line_described (raw : string) :
  is_column_line (clean raw) = Decl.is_column_declaration raw.
Proof.
  rewrite clean_described. unfold Decl.is_column_declaration, is_column_line.
  destruct (Decl.trimmed raw) as [| a r]; [reflexivity |].
  destruct (rstrip_by_cases is_comma a r) as [[-> Ha] | (r' & ->)].
  - unfold is_comma in Ha. apply Ascii.eqb_eq in Ha. now subst a.
  - change (Str.startswith "`" (String a r'))
      with (Ascii.eqb "`" a && true).
    now rewrite andb_true_r, Ascii.eqb_sym.
Qed.

(** A word that does not end like what is taken away is looked for in
    vain in what is taken away. *)
Lemma startswith_upper_rstrip cls (word s : string) :
  word <> "" ->
  (forall x, cls x = true -> last_char word <> Some (Str.upper_char x)) ->
  Str.startswith word (Str.upper (Str.rstrip_by cls s))
  = Str.startswith word (Str.upper s).
Proof.
  revert word. induction s as [| c s IH]; intros word Hne Hlast; trivial.
  destruct word as [| p word]; [congruence |].
  change (Str.upper (String c s)) with (String (Str.upper_char c) (Str.upper s)).
  change (Str.startswith (String p word) (String (Str.upper_char c) (Str.upper s)))
    with (Ascii.eqb p (Str.upper_char c) && Str.startswith word (Str.upper s)).
  destruct word as [| q word].
  - (* the last character of the word *)
    destruct (rstrip_by_cases cls c s) as [[-> Hc] | (r' & ->)].
    + specialize (Hlast c Hc). simpl in Hlast.
      destruct (Ascii.eqb_spec p (Str.upper_char c)) as [-> | _];
        [congruence | reflexivity].
    + reflexivity.
  - assert (Hw : Str.startswith (String q word) (Str.upper (Str.rstrip_by cls s))
                 = Str.startswith (String q word) (Str.upper s)).
    { apply IH; [discriminate | exact Hlast]. }
    rewrite <- Hw.
    change (Str.rstrip_by cls (String c s))
      with (match Str.rstrip_by cls s with
            | EmptyString => if cls c then EmptyString else String c EmptyString
            | r => String c r
            end).
    destruct (Str.rstrip_by cls s) as [| b r].
    + change (Str.startswith (String q word) (Str.upper "")) with false.
      rewrite andb_false_r. destruct (cls c); [reflexivity |].
      change (Str.startswith (String p (String q word))
                             (Str.upper (String c "")))
        with (Ascii.eqb p (Str.upper_char c) && false).
      apply andb_false_r.
    + reflexivity.
Qed.

Lemma begins_with_upper (word : list (ascii * ascii)) (s : string) :
  Forall (fun ul => forall c,
              Ascii.eqb (fst ul) (Str.upper_char c)
              = Ascii.eqb c (fst ul) || Ascii.eqb c (snd ul)) word ->
  Decl.begins_with word s
  = Str.startswith (string_of_list_ascii (List.map fst word)) (Str.upper s).
Proof.
  intros F. revert s. induction F as [| [u l] word H _ IH]; intros s.
  - now destruct s.
  - destruct s as [| c s]; [reflexivity |].
    change (Decl.begins_with ((u, l) :: word) (String c s))
      with ((Ascii.eqb c u || Ascii.eqb c l) && Decl.begins_with word s).
    change (Str.startswith (string_of_list_ascii (List.map fst ((u, l) :: word)))
                           (Str.upper (String c s)))
      with (Ascii.eqb u (Str.upper_char c)
            && Str.startswith (string_of_list_ascii (List.map fst word))
                              (Str.upper s)).
    rewrite IH. f_equal. symmetry. exact (H c).
Qed.

Lemma PRIMARY_KEY_letters :
  Forall (fun ul => forall c,
              Ascii.eqb (fst ul) (Str.upper_char c)
              = Ascii.eqb c (fst ul) || Ascii.eqb c (snd ul)) Decl.PRIMARY_KEY.
Proof.
  unfold Decl.PRIMARY_KEY.
  repeat (constructor;
          [intros c; destruct c as [[] [] [] [] [] [] [] []]; reflexivity |]).
  constructor.
Qed.

(** The parser takes for a key line what is described as one. *)
Lemma key_line_described (raw : string) :
  is_primary_key_line (clean raw) = Decl.is_primary_key raw.
Proof.
  rewrite clean_described. unfold is_primary_key_line, Decl.is_primary_key.
  rewrite startswith_upper_rstrip.
  - now rewrite (begins_with_upper _ _ PRIMARY_KEY_letters).
  - discriminate.
  - intros x Hx. unfold is_comma in Hx. apply Ascii.eqb_eq in Hx. subst x.
    discriminate.
Qed.

Lemma ignored_described (raw : string) :
  negb (is_ignored raw) = Decl.is_relevant raw.
Proof.
  unfold is_ignored, Decl.is_relevant.
  rewrite column_line_described, key_line_described.
  now destruct (Decl.is_column_declaration raw), (Decl.is_primary_key raw).
Qed.

Lemma filter_map_comm {A B} (f : A -> B) (ok : B -> bool) (l : list A) :
  filter ok (List.map f l) = List.map f (filter (fun a => ok (f a)) l).
Proof.
  induction l as [| a l IH]; simpl; trivial.
  destruct (ok (f a)); simpl; now rewrite IH.
Qed.

Lemma column_lines_described (text : string) :
  column_lines (lines_of text) = List.map clean (Decl.column_declarations text).
Proof.
  unfold column_lines, Decl.column_declarations.
  rewrite filter_map_comm, lines_described. f_equal.
  apply filter_ext. intros raw. apply column_line_described.
Qed.

Lemma until_backtick_spec (s : string) n r :
  Decl.until_backtick s = (n, Some r) ->
  s = n ++ String backtick r /\ Str.all not_backtick n = true.
Proof.
  revert n. induction s as [| c s IH]; intros n; simpl; [discriminate |].
  destruct (Ascii.eqb_spec c "`") as [-> | Hc].
  - intros [= <- <-]. now split.
  - destruct (Decl.until_backtick s) as [n' r'] eqn:U.
    intros [= <- ->]. destruct (IH n' eq_refl) as [-> A]. split; trivial.
    simpl. rewrite A, andb_true_r. unfold not_backtick.
    apply negb_true_iff. now apply Ascii.eqb_neq.
Qed.

Lemma no_blank_not_space (s : string) :
  Decl.no_blank s = true -> Str.all not_space s = true.
Proof.
  induction s as [| c s IH]; simpl; trivial.
  rewrite blank_isspace. intros H. apply andb_prop in H as [Hc Hs].
  unfold not_space at 1. now rewrite Hc, IH.
Qed.

(** On a plain column-declaration line the parser reads the name that
    stands between the first pair of backticks. *)
Lemma declared_name_described (raw : string) :
  Decl.is_column_declaration raw = true ->
  Decl.is_plain raw = true ->
  declared_name (clean raw) = Decl.name raw.
Proof.
  rewrite clean_described.
  unfold Decl.is_column_declaration, Decl.is_plain, Decl.name.
  destruct (Decl.trimmed raw) as [| a s]; [discriminate |].
  intros Ha. apply Ascii.eqb_eq in Ha. subst a.
  destruct (Decl.until_backtick s) as [n [[| c rest] |]] eqn:U;
    try discriminate.
  intros H. apply andb_prop in H as [Hn Hc]. rewrite blank_isspace in Hc.
  apply no_blank_not_space in Hn.
  destruct (until_backtick_spec _ _ _ U) as [-> Hb]. simpl fst.
  change (String "`" (n ++ String backtick (String c rest)))
    with (String backtick (n ++ String backtick (String c rest))).
  replace (String backtick (n ++ String backtick (String c rest)))
    with (quoted n ++ String c rest)
    by (unfold quoted; simpl; now rewrite append_assoc).
  assert (Hcomma : is_comma c = false).
  { unfold is_comma. destruct (Ascii.eqb_spec "," c) as [<- | _];
      [discriminate | reflexivity]. }
  destruct (rstrip_by_head is_comma c rest Hcomma) as (r' & R).
  rewrite rstrip_by_append by (rewrite R; discriminate). rewrite R.
  unfold declared_name, Str.split.
  rewrite split_ws_from_part.
  - simpl append. simpl Str.split_ws_from. rewrite Hc.
    simpl. now apply strip_chr_quoted.
  - unfold quoted. cbn [Str.all]. rewrite all_append, Hn. reflexivity.
Qed.

End Described.

(** C7: on a DDL text whose column-declaration lines each have a name and
    a type that resolves, the parser returns, with as many columns as the
    text has column-declaration lines (the lines that, trimmed, begin with
    the backtick); the columns stand in the order of those lines, each
    resolved from its line and, when the quoted names are plain, named by
    the name quoted on its line; and the lines that are neither
    column-declaration lines nor primary-key lines can be taken out of the
    text without changing the run. *)
Theorem columns_follow_declaration_lines mysql_ddl strict verbose :
  well_formed strict mysql_ddl = true ->
  exists evs columns pks,
    extract_columns mysql_ddl strict verbose = (evs, Return (columns, pks))
    /\ List.length columns = List.length (Decl.column_declarations mysql_ddl)
    /\ Forall2 (resolved_as strict verbose)
               (List.map clean (Decl.column_declarations mysql_ddl)) columns
    /\ (forallb Decl.is_plain (Decl.column_declarations mysql_ddl) = true ->
        List.map col_name columns
        = List.map Decl.name (Decl.column_declarations mysql_ddl))
    /\ extract_lines strict verbose ([], [])
                     (filter Decl.is_relevant (Decl.lines mysql_ddl))
       = (evs, Return (columns, pks)).
Proof.
  intros Hwf.
  destruct (extract_lines_returns strict verbose _ Hwf [] [])
    as (evs & columns & Hrun & Hcols).
  rewrite column_lines_described in Hcols.
  exists evs, columns, (pk_entries (lines_of mysql_ddl)).
  split; [exact Hrun | split; [| split; [| split]]].
  - rewrite <- (length_map clean). symmetry. exact (Forall2_length Hcols).
  - exact Hcols.
  - intros Hplain.
    rewrite (resolved_names _ _ _ _ Hcols), map_map.
    apply map_ext_in. intros raw Hin.
    rewrite forallb_forall in Hplain.
    apply declared_name_described; [| now apply Hplain].
    unfold Decl.column_declarations in Hin.
    now apply filter_In in Hin.
  - rewrite lines_described.
    rewrite <- (filter_ext _ _ ignored_described).
    rewrite extract_lines_ignored. exact Hrun.
Qed.

Lemma columns_follow_declaration_lines_witness :
  exists evs columns pks,
    extract_columns orders_ddl true true = (evs, Return (columns, pks))
    /\ List.length columns = 3
    /\ Forall2 (resolved_as true true)
               ["`id` int NOT NULL"; "`name` varchar(255) DEFAULT NULL";
                "`amount` decimal(10,2) DEFAULT NULL"]
               columns
    /\ (true = true -> List.map col_name columns = ["id"; "name"; "amount"])
    /\ extract_lines true true ([], [])
                     ["  `id` int NOT NULL,";
                      "  `name` varchar(255) DEFAULT NULL,";
                      "  `amount` decimal(10,2) DEFAULT NULL,";
                      "  PRIMARY KEY (`id`)"]
       = (evs, Return (columns, pks)).
Proof.
  exact (columns_follow_declaration_lines orders_ddl true true eq_refl).
Defined.
